(** * rag_abstract_8.py: a step-back RAG pipeline, embedded and verified

    The pipeline of [rag_abstract_8.py] is embedded function by function.
    Python values are modelled as follows.

    - [str] is [string]: a sequence of code points below 256.
    - [dict] is a [gmap]; [set] is a [gset], whose order of enumeration is
      as unspecified for the proofs as the iteration order of a Python set.
    - Exceptions are values of [exn]; a call that may raise returns a
      [result].
    - [os.environ], the Pinecone project and the calls made to the outside
      world are fields of an explicit [World] that every effectful function
      threads through the monad [M].
    - The third-party collaborators (PDF loader, tokenizer, text splitter,
      embedder, similarity search, LLM, LangChain serializer) are the fields
      of the class [Collaborators]. *)

From Stdlib Require Import Ascii QArith.
From stdpp Require Import base gmap strings list sets pretty.

Local Open Scope nat_scope.

(** ** Exceptions and results *)

Inductive exn : Type :=
  | TypeError (msg : string)
  | ValueError (msg : string)
  | IndexError (msg : string)
  | KeyError (key : string)
  | FileNotFoundError (path : string)
  | ValidationError (model : string)
  | PineconeApiException (status : nat) (msg : string)
  | CollaboratorError (stage : string).

Inductive result (A : Type) : Type :=
  | Ok (a : A)
  | Err (e : exn).
Arguments Ok {A} a.
Arguments Err {A} e.

Definition is_ok {A} (r : result A) : bool :=
  match r with Ok _ => true | Err _ => false end.

(** ** Python string and list built-ins used by the source *)

Module Py.

Definition code (c : ascii) : nat := nat_of_ascii c.

Definition in_range (lo hi : nat) (c : ascii) : bool :=
  (lo <=? code c) && (code c <=? hi).

(** The character class [[a-z0-9]]. *)
Definition is_lower_alnum (c : ascii) : bool :=
  in_range 97 122 c || in_range 48 57 c.

Definition is_hyphen (c : ascii) : bool := Ascii.eqb c "-".

Definition is_dot (c : ascii) : bool := Ascii.eqb c ".".

(** The alphabet [[a-z0-9-]]. *)
Definition is_id_char (c : ascii) : bool := is_lower_alnum c || is_hyphen c.

(** [str.lower] on one code point: [A-Z] and the Latin-1 capitals
    (U+00C0 to U+00DE, the multiplication sign U+00D7 apart) move up
    by 32; everything else is kept. *)
Definition lower_char (c : ascii) : ascii :=
  if in_range 65 90 c || (in_range 192 222 c && negb (code c =? 215))
  then ascii_of_nat (code c + 32)
  else c.

(** [s.lower()] *)
Fixpoint lower (s : string) : string :=
  match s with
  | EmptyString => EmptyString
  | String c s' => String (lower_char c) (lower s')
  end.

(** [s.split(sep)] for a one-character separator (also [re.split] on a
    one-character class): empty fields are kept, and the result always
    has at least one field. *)
Fixpoint split (sep : ascii) (s : string) : list string :=
  match s with
  | EmptyString => [EmptyString]
  | String c s' =>
      if Ascii.eqb c sep then EmptyString :: split sep s'
      else match split sep s' with
           | w :: ws => String c w :: ws
           | [] => [String c EmptyString]
           end
  end.

(** [sep.join(l)] *)
Fixpoint join (sep : string) (l : list string) : string :=
  match l with
  | [] => EmptyString
  | [w] => w
  | w :: ws => w +:+ sep +:+ join sep ws
  end.

(** [l[:-1]] *)
Definition drop_last {A} (l : list A) : list A := take (length l - 1) l.

(** [l[-n:]] for [n > 0] *)
Definition last_n {A} (n : nat) (l : list A) : list A :=
  drop (length l - n) l.

(** [l[0]] *)
Definition item0 {A} (l : list A) : result A :=
  match l with
  | [] => Err (IndexError "list index out of range")
  | x :: _ => Ok x
  end.

(** [s[:n]] *)
Fixpoint str_take (n : nat) (s : string) : string :=
  match n, s with
  | S n', String c s' => String c (str_take n' s')
  | _, _ => EmptyString
  end.

(** [os.path.basename(p)]: what follows the last slash. *)
Definition basename (p : string) : string :=
  List.last (split "/" p) EmptyString.

(** [re.sub(r'[^a-z0-9]', '-', s)] *)
Fixpoint sub_non_alnum (s : string) : string :=
  match s with
  | EmptyString => EmptyString
  | String c s' =>
      String (if is_lower_alnum c then c else "-"%char) (sub_non_alnum s')
  end.

(** [re.sub(r'-{1,}', '-', s)]: every maximal run of hyphens becomes one
    hyphen. A hyphen followed by a hyphen is dropped, so the last hyphen
    of a run is the one that stays. *)
Fixpoint sub_hyphen_runs (s : string) : string :=
  match s with
  | EmptyString => EmptyString
  | String c s' =>
      match s' with
      | String c' _ =>
          if is_hyphen c && is_hyphen c' then sub_hyphen_runs s'
          else String c (sub_hyphen_runs s')
      | EmptyString => String c EmptyString
      end
  end.

(** Predicates on strings, as boolean functions. *)
Fixpoint str_forall (p : ascii → bool) (s : string) : bool :=
  match s with
  | EmptyString => true
  | String c s' => p c && str_forall p s'
  end.

Fixpoint str_exists (p : ascii → bool) (s : string) : bool :=
  match s with
  | EmptyString => false
  | String c s' => p c || str_exists p s'
  end.

Fixpoint has_double_hyphen (s : string) : bool :=
  match s with
  | String c (String c' _ as s') =>
      (is_hyphen c && is_hyphen c') || has_double_hyphen s'
  | _ => false
  end.

(** Whether a string begins, or ends, with a hyphen. *)
Definition starts_with_hyphen (s : string) : bool :=
  match s with
  | String c _ => is_hyphen c
  | EmptyString => false
  end.

Fixpoint ends_with_hyphen (s : string) : bool :=
  match s with
  | EmptyString => false
  | String c EmptyString => is_hyphen c
  | String _ s' => ends_with_hyphen s'
  end.

End Py.

(** ** Regular expressions, matched by derivatives

    Only what is needed to write down the pattern the specification gives for
    index identifiers. [fullmatch r s] is Python's [re.fullmatch]. *)

Module Regex.

Inductive regex : Type :=
  | Void
  | Eps
  | Class (p : ascii → bool)
  | Cat (r1 r2 : regex)
  | Alt (r1 r2 : regex)
  | Star (r : regex).

Definition Plus (r : regex) : regex := Cat r (Star r).

Fixpoint nullable (r : regex) : bool :=
  match r with
  | Void => false
  | Eps => true
  | Class _ => false
  | Cat r1 r2 => nullable r1 && nullable r2
  | Alt r1 r2 => nullable r1 || nullable r2
  | Star _ => true
  end.

Fixpoint deriv (c : ascii) (r : regex) : regex :=
  match r with
  | Void => Void
  | Eps => Void
  | Class p => if p c then Eps else Void
  | Cat r1 r2 =>
      if nullable r1 then Alt (Cat (deriv c r1) r2) (deriv c r2)
      else Cat (deriv c r1) r2
  | Alt r1 r2 => Alt (deriv c r1) (deriv c r2)
  | Star r1 => Cat (deriv c r1) (Star r1)
  end.

Fixpoint fullmatch (r : regex) (s : string) : bool :=
  match s with
  | EmptyString => nullable r
  | String c s' => fullmatch (deriv c r) s'
  end.

(** [^[a-z0-9]+(-[a-z0-9]+)*$] *)
Definition index_id_pattern : regex :=
  Cat (Plus (Class Py.is_lower_alnum))
      (Star (Cat (Class Py.is_hyphen) (Plus (Class Py.is_lower_alnum)))).

(** The two-state automaton of [index_id_pattern]. [in_word] tells
    whether the last character read was one of [[a-z0-9]]; a hyphen is
    only read in that state, and the end of the string only accepted
    there. *)
Fixpoint accepts (in_word : bool) (s : string) : bool :=
  match s with
  | EmptyString => in_word
  | String c s' =>
      if Py.is_lower_alnum c then accepts true s'
      else if Py.is_hyphen c then in_word && accepts false s'
      else false
  end.

End Regex.

(** ** [get_index_name] *)

Definition get_index_name (prefix data_source : string) : result string :=
  match Py.item0 (Py.drop_last (Py.split "." (Py.basename data_source))) with
  | Err e => Err e
  | Ok stem =>
      let index_name :=
        prefix +:+ ":" +:+ Py.lower (Py.join " " (Py.last_n 5 (Py.split " " stem))) in
      let index_name :=
        Py.str_take 45 (Py.sub_hyphen_runs (Py.sub_non_alnum index_name)) in
      Ok index_name
  end.

(** ** Data model *)

Record Document : Type := mkDocument {
  page_content : string;
  metadata : list (string * string);
}.

(** A prompt is kept structured: the template (or the few-shot frame) and
    the values that fill it. *)
Inductive Prompt : Type :=
  | FewShotPrompt (system : string) (examples : list (string * string))
      (user : string)
  | TemplatePrompt (template : string)
      (normal_context step_back_context : list string) (question : string).

Record ChatGroq : Type := mkChatGroq {
  api_key : string;
  temperature : Q;
  model : string;
}.

Record PineconeIndex : Type := mkIndex {
  dimension : nat;
  metric : string;
  vectors : list (list Q * Document);
}.

Record PineconeVectorStore : Type := mkVectorStore {
  vs_index_name : string;
}.

Record Retriever : Type := mkRetriever {
  vectorstore : PineconeVectorStore;
  search_k : nat;
}.

(** Calls that leave the process, in the order they are made. *)
Inductive event : Type :=
  | EvLoadPdf (path : string)
  | EvPrintLoaded (pages : nat) (path : string)
  | EvOpenExamples (path : string)
  | EvEmbedDocuments (texts : list string)
  | EvListIndexes
  | EvCreateIndex (name : string) (dim : nat)
  | EvUpsert (index_name : string) (docs : list Document)
  | EvFromExistingIndex (index_name : string)
  | EvSearch (index_name : string) (k : nat) (query : string)
  | EvLLM (llm : ChatGroq) (prompt : Prompt)
  | EvPrintAnswer (question answer : string).

Record World : Type := mkWorld {
  environ : gmap string string;
  pinecone : gmap string PineconeIndex;
  llm_calls : nat;
  trace : list event;
}.

Definition set_environ (f : gmap string string → gmap string string)
    (w : World) : World :=
  mkWorld (f (environ w)) (pinecone w) (llm_calls w) (trace w).

Definition set_pinecone
    (f : gmap string PineconeIndex → gmap string PineconeIndex)
    (w : World) : World :=
  mkWorld (environ w) (f (pinecone w)) (llm_calls w) (trace w).

Definition log (e : event) (w : World) : World :=
  mkWorld (environ w) (pinecone w) (llm_calls w) (trace w ++ [e]).

Definition count_llm_call (w : World) : World :=
  mkWorld (environ w) (pinecone w) (S (llm_calls w)) (trace w).

(** Number of vectors stored under an index name (0 when there is no such
    index), and in the whole project. *)
Definition vector_count (name : string) (w : World) : nat :=
  match pinecone w !! name with
  | Some idx => length (vectors idx)
  | None => 0
  end.

Definition total_vector_count (w : World) : nat :=
  sum_list ((λ p : string * PineconeIndex, length (vectors p.2)) <$>
            map_to_list (pinecone w)).

(** ** The monad of effectful Python code

    A computation takes the world and returns a value or the exception it
    raised, with the world as it is at that point. *)

Definition M (A : Type) : Type := World → result A * World.

Definition ret {A} (a : A) : M A := λ w, (Ok a, w).

Definition raise {A} (e : exn) : M A := λ w, (Err e, w).

Definition lift {A} (r : result A) : M A := λ w, (r, w).

Definition bind {A B} (m : M A) (k : A → M B) : M B := λ w,
  match m w with
  | (Ok a, w') => k a w'
  | (Err e, w') => (Err e, w')
  end.

Notation "'do' x <- m 'in' k" := (bind m (λ x, k))
  (at level 10, x name, m at level 100, k at level 200, only parsing).

Definition emit (e : event) : M unit := λ w, (Ok tt, log e w).

(** ** Concurrent branches

    [RunnableParallel] submits its branches to a thread pool, so their
    outside calls interleave in an order that the program does not fix. A
    branch is therefore cut into atomic steps, a [Task]: each step changes
    the world and says, from the world it started in, how the branch goes
    on. *)

Inductive Task (A : Type) : Type :=
  | Done (r : result A)
  | Step (effect : World → World) (next : World → Task A).
Arguments Done {A} r.
Arguments Step {A} effect next.

(** A branch run on its own, to its end. *)
Fixpoint run_task {A} (t : Task A) (w : World) : result A * World :=
  match t with
  | Done r => (r, w)
  | Step effect next => run_task (next w) (effect w)
  end.

(** One effectful call as one atomic step, followed by what the branch
    does with its value; an exception ends the branch. *)
Definition call {A B} (m : M A) (k : A → Task B) : Task B :=
  Step (λ w, (m w).2)
       (λ w, match (m w).1 with
             | Ok a => k a
             | Err e => Done (Err e)
             end).

(** Three branches advanced as a schedule says: each entry names the
    branch (0, 1, or anything else for the third) that takes its next step;
    an entry for a branch that has finished is skipped. Once the schedule
    is used up, the branches are run to their ends in the order of the
    keys. Every interleaving of the steps is the run of some schedule. *)
Fixpoint parallel3 {A B C} (schedule : list nat)
    (t1 : Task A) (t2 : Task B) (t3 : Task C) (w : World)
    : (result A * result B * result C) * World :=
  match schedule with
  | [] =>
      let '(r1, w1) := run_task t1 w in
      let '(r2, w2) := run_task t2 w1 in
      let '(r3, w3) := run_task t3 w2 in
      ((r1, r2, r3), w3)
  | i :: rest =>
      match i, t1, t2, t3 with
      | 0, Step effect next, _, _ => parallel3 rest (next w) t2 t3 (effect w)
      | 1, _, Step effect next, _ => parallel3 rest t1 (next w) t3 (effect w)
      | S (S _), _, _, Step effect next =>
          parallel3 rest t1 t2 (next w) (effect w)
      | _, _, _, _ => parallel3 rest t1 t2 t3 w
      end
  end.

(** [RunnableParallel] on three branches: once all branches are over, the
    results are collected in the order of the keys, so the first failure
    in that order is the one that propagates. *)
Definition runnable_parallel {A B C} (schedule : list nat)
    (t1 : Task A) (t2 : Task B) (t3 : Task C) : M (A * B * C) := λ w,
  let '((r1, r2, r3), w') := parallel3 schedule t1 t2 t3 w in
  (match r1, r2, r3 with
   | Ok a, Ok b, Ok c => Ok (a, b, c)
   | Err e, _, _ => Err e
   | Ok _, Err e, _ => Err e
   | Ok _, Ok _, Err e => Err e
   end, w').

(** [x[key]] on a [dict] of strings *)
Definition getitem (x : gmap string string) (key : string) : result string :=
  match x !! key with
  | Some v => Ok v
  | None => Err (KeyError key)
  end.

(** ** [os.environ] *)

(** [os.environ.get(param)] *)
Definition environ_get (param : string) : M (option string) := λ w,
  (Ok (environ w !! param), w).

(** [os.environ[param]] *)
Definition environ_getitem (param : string) : M string := λ w,
  (getitem (environ w) param, w).

(** [os.environ[param] = value], where [value] is a [str] ([Some]) or
    [None]: the mapping encodes the value, and refuses what is not a
    [str]. *)
Definition environ_setitem (param : string) (value : option string) : M unit :=
  match value with
  | Some s => λ w, (Ok tt, set_environ (<[param := s]>) w)
  | None => raise (TypeError "str expected, not NoneType")
  end.

(** ** Third-party collaborators *)

Class Collaborators : Type := {
  (** [PyPDFLoader(file_path, extract_images=True).load()] *)
  pdf_loader : string → result (list Document);
  (** [tiktoken.get_encoding(encoding).encode(doc)] *)
  tiktoken_encode : string → string → list nat;
  (** [split_documents] of a [RecursiveCharacterTextSplitter] built with
      [chunk_size], [chunk_overlap] and [length_function] *)
  split_documents :
    Z → Z → (string → nat) → list Document → result (list Document);
  (** [OllamaEmbeddings]: one vector per text *)
  embed_passage : string → list Q;
  embed_query : string → list Q;
  (** Pinecone's top-[k] query over the vectors of one index *)
  similarity_search : list (list Q * Document) → list Q → nat → list Document;
  (** the Groq completion; the first argument numbers the call, as a
      completion need not be the same twice *)
  chat_completion : nat → ChatGroq → Prompt → result string;
  (** [langchain.load.dumps] and [loads] *)
  dumps : Document → string;
  loads : string → Document;
  (** [json.load] of the few-shot examples file *)
  examples_json : string → result (list (string * string));
  (** the order in which the thread pool of [RunnableParallel] advances
      the branches, which may depend on anything *)
  thread_schedule : World → list nat;
}.

Section Pipeline.
Context {deps : Collaborators}.

(** *** [set_env] *)

Definition os_param_not_set (param : string) : M bool :=
  do v <- environ_get param in
  match v with
  | None => ret true
  | Some _ =>
      do v' <- environ_get param in
      ret (bool_decide (v' = Some EmptyString))
  end.

Definition set_env (project_name : string) : M unit :=
  do _ <- environ_setitem "LANGCHAIN_TRACING_V2" (Some "true") in
  do _ <- environ_setitem "LANGCHAIN_ENDPOINT" (Some "https://api.smith.langchain.com") in
  do _ <- environ_setitem "LANGCHAIN_PROJECT" (Some project_name) in
  do unset <- os_param_not_set "LANGCHAIN_API_KEY" in
  do _ <-
    (if unset : bool then
       do _ <- environ_setitem "LANGCHAIN_TRACING_V2" None in
       do _ <- environ_setitem "LANGCHAIN_ENDPOINT" None in
       environ_setitem "LANGCHAIN_PROJECT" None
     else ret tt) in
  do unset <- os_param_not_set "GROQ_API_KEY" in
  do _ <- (if unset : bool then raise (ValueError "GROQ_API_KEY not set.") else ret tt) in
  do unset <- os_param_not_set "PINECONE_API_KEY" in
  (if unset : bool then raise (ValueError "PINECONE_API_KEY not set.") else ret tt).

(** *** [get_llm], [get_embedder] *)

(** [ChatGroq(api_key=..., temperature=..., model=...)]: the constructor
    validates its fields and refuses an empty key with pydantic's
    [ValidationError], which names the class that was being built. *)
Definition chat_groq (api_key : string) (temperature : Q) (model : string)
    : result ChatGroq :=
  if bool_decide (api_key = EmptyString)
  then Err (ValidationError "ChatGroq")
  else Ok (mkChatGroq api_key temperature model).

Definition get_llm (temperature : Q) (model : string) : M ChatGroq :=
  do key <- environ_getitem "GROQ_API_KEY" in
  lift (chat_groq key temperature model).

Definition llm_invoke (llm : ChatGroq) (prompt : Prompt) : M string := λ w,
  (chat_completion (llm_calls w) llm prompt,
   count_llm_call (log (EvLLM llm prompt) w)).

(** [embedder.embed_documents(texts)] *)
Definition embed_documents (texts : list string) : M (list (list Q)) :=
  do _ <- emit (EvEmbedDocuments texts) in
  ret (embed_passage <$> texts).

(** *** [split_pdf] *)

Definition _load_pdf (data_source : string) : M (list Document) :=
  do _ <- emit (EvLoadPdf data_source) in
  do pdf_docs <- lift (pdf_loader data_source) in
  do _ <- emit (EvPrintLoaded (length pdf_docs) data_source) in
  ret pdf_docs.

Definition _num_tokens (encoding : string) (doc : string) : nat :=
  length (tiktoken_encode encoding doc).

(** [RecursiveCharacterTextSplitter(chunk_size, chunk_overlap,
    length_function)]: the constructor refuses a chunk overlap larger than
    the chunk size; of what it builds, [split_pdf] uses
    [split_documents]. *)
Definition text_splitter (chunk_size chunk_overlap : Z)
    (length_function : string → nat)
    : result (list Document → result (list Document)) :=
  if (chunk_size <? chunk_overlap)%Z
  then Err (ValueError
              ("Got a larger chunk overlap (" +:+ pretty chunk_overlap +:+
               ") than chunk size (" +:+ pretty chunk_size +:+
               "), should be smaller."))
  else Ok (split_documents chunk_size chunk_overlap length_function).

Definition split_pdf (pdf_source : string) (chunk_size chunk_overlap : Z)
    (encoding : string) : M (list Document) :=
  do pdf_docs <- _load_pdf pdf_source in
  do splitter <-
    lift (text_splitter chunk_size chunk_overlap (_num_tokens encoding)) in
  lift (splitter pdf_docs).

(** *** [get_retriever] *)

(** [pc.list_indexes().get('indexes')] *)
Definition list_indexes : M (list (string * PineconeIndex)) :=
  do _ <- emit EvListIndexes in
  (λ w, (Ok (map_to_list (pinecone w)), w)).

(** [pc.create_index(name, dimension, metric=cosine, spec)]: the
    service refuses a name that is taken. *)
Definition create_index (name : string) (dim : nat) : M unit :=
  do _ <- emit (EvCreateIndex name dim) in
  (λ w, match pinecone w !! name with
        | Some _ => (Err (PineconeApiException 409 "ALREADY_EXISTS"), w)
        | None =>
            (Ok tt, set_pinecone (<[name := mkIndex dim "cosine" []]>) w)
        end).

Definition _create_pinecone_index (index_name : string) (dim : nat) : M bool :=
  do indexes <- list_indexes in
  if sum_list ((λ index : string * PineconeIndex,
                  if String.eqb index.1 index_name then 1 else 0) <$> indexes)
     =? 1
  then ret false
  else
    do _ <- create_index index_name dim in
    ret true.

(** [PineconeVectorStore.from_documents(docs, embedding, index_name)]:
    every document is embedded and stored in the named index. *)
Definition from_documents (docs : list Document) (index_name : string)
    : M PineconeVectorStore :=
  do embeddings <- embed_documents (page_content <$> docs) in
  do _ <- emit (EvUpsert index_name docs) in
  (λ w, match pinecone w !! index_name with
        | None => (Err (PineconeApiException 404 "NOT_FOUND"), w)
        | Some idx =>
            (Ok (mkVectorStore index_name),
             set_pinecone
               (<[index_name :=
                  mkIndex (dimension idx) (metric idx)
                    (vectors idx ++ zip embeddings docs)]>) w)
        end).

(** [PineconeVectorStore.from_existing_index(index_name, embedder)] *)
Definition from_existing_index (index_name : string) : M PineconeVectorStore :=
  do _ <- emit (EvFromExistingIndex index_name) in
  (λ w, match pinecone w !! index_name with
        | None => (Err (PineconeApiException 404 "NOT_FOUND"), w)
        | Some _ => (Ok (mkVectorStore index_name), w)
        end).

Definition get_retriever (docs : list Document) (k : nat)
    (index_name : string) : M Retriever :=
  do probe <- embed_documents ["a"] in
  do first <- lift (Py.item0 probe) in
  do created <- _create_pinecone_index index_name (length first) in
  do vectorstore <-
    (if created : bool then from_documents docs index_name
     else from_existing_index index_name) in
  ret (mkRetriever vectorstore k).

(** [retriever.invoke(query)] *)
Definition retriever_invoke (retriever : Retriever) (query : string)
    : M (list Document) :=
  let name := vs_index_name (vectorstore retriever) in
  do _ <- emit (EvSearch name (search_k retriever) query) in
  (λ w, match pinecone w !! name with
        | None => (Err (PineconeApiException 404 "NOT_FOUND"), w)
        | Some idx =>
            (Ok (similarity_search (vectors idx) (embed_query query)
                   (search_k retriever)), w)
        end).

(** *** [get_query_enhance_chain] *)

Definition step_back_system : string :=
  "You are an expert at world knowledge. Your task is to step back and paraphrase a question to a more generic step-back question, which is easier to answer. Here are a few examples:".

(** The chain that [get_query_enhance_chain] builds: the few-shot
    prompt, the LLM and [StrOutputParser]. *)
Definition query_enhance_chain (examples : list (string * string))
    (llm : ChatGroq) (x : gmap string string) : M string :=
  do question <- lift (getitem x "question") in
  llm_invoke llm (FewShotPrompt step_back_system examples question).

Definition get_query_enhance_chain : M (gmap string string → M string) :=
  do _ <- emit (EvOpenExamples "data/rag_abstract_examples.json") in
  do examples <- lift (examples_json "data/rag_abstract_examples.json") in
  do llm <- get_llm (7 # 10) "llama3-8b-8192" in
  ret (query_enhance_chain examples llm).

(** *** [get_final_rag_chain] *)

Definition get_unique_union (documents : list Document) : list string :=
  let flattened_docs := dumps <$> documents in
  let unique_docs := elements (list_to_set flattened_docs : gset string) in
  (λ doc, page_content (loads doc)) <$> unique_docs.

Definition response_prompt_template : string :=
  "You are an expert of world knowledge. I am going to ask you a question. Your response should be comprehensive and not contradicted with the following context if they are relevant. Otherwise, ignore them if they are not relevant.

    # Direct context:
    ```
    {normal_context}
    ```

    # More abstract context:
    ```
    {step_back_context}
    ```

    # Original Question: {question}
    # Answer:".

(** The chain that [get_final_rag_chain] builds around [llm]: the three
    entries of the dictionary are the branches of a [RunnableParallel] on
    the input [x]; then come the response prompt, the LLM and
    [StrOutputParser]. *)
Definition rag_chain
    (query_enchance_chain : gmap string string → M string)
    (retriever : Retriever) (llm : ChatGroq)
    (x : gmap string string) : M string := λ w,
  (do inputs <-
     runnable_parallel (thread_schedule w)
       (match getitem x "question" with
        | Ok question =>
            call (retriever_invoke retriever question)
              (λ docs, Done (Ok (get_unique_union docs)))
        | Err e => Done (Err e)
        end)
       (call (query_enchance_chain x)
          (λ step_back,
             call (retriever_invoke retriever step_back)
               (λ docs, Done (Ok (get_unique_union docs)))))
       (Done (getitem x "question")) in
   llm_invoke llm
     (TemplatePrompt response_prompt_template
        inputs.1.1 inputs.1.2 inputs.2)) w.

Definition get_final_rag_chain
    (query_enchance_chain : gmap string string → M string)
    (retriever : Retriever) : M (gmap string string → M string) :=
  do llm <- get_llm (7 # 10) "llama3-8b-8192" in
  ret (rag_chain query_enchance_chain retriever llm).

(** *** [main] *)

Definition main (pdf_path question : string) : M unit :=
  do _ <- set_env "rag_abstract_8_python" in
  do splits <- split_pdf pdf_path 512 128 "cl100k_base" in
  do index_name <- lift (get_index_name "rag-abstract-8" pdf_path) in
  do retriever <- get_retriever splits 5 index_name in
  do query_enhance_chain <- get_query_enhance_chain in
  do final_rag_chain <- get_final_rag_chain query_enhance_chain retriever in
  do answer <- final_rag_chain {[ "question" := question ]} in
  emit (EvPrintAnswer question answer).

End Pipeline.

(** ** Observations on a trace *)

(** The similarity searches found in a trace, oldest first: index name,
    fan-out and query text of each. *)
Fixpoint search_calls (t : list event) : list (string * nat * string) :=
  match t with
  | [] => []
  | EvSearch name k query :: t' => (name, k, query) :: search_calls t'
  | _ :: t' => search_calls t'
  end.

(** A computation that issues no similarity search of its own. *)
Definition issues_no_search {A} (m : M A) : Prop :=
  ∀ w, search_calls (trace (m w).2) = search_calls (trace w).

(** A computation that leaves the Pinecone project as it found it. *)
Definition keeps_store {A} (m : M A) : Prop :=
  ∀ w, pinecone (m w).2 = pinecone w.

(** The environment as the first three assignments of [set_env] leave
    it. *)
Definition traced (project_name : string) (env : gmap string string)
    : gmap string string :=
  <["LANGCHAIN_PROJECT" := project_name]>
    (<["LANGCHAIN_ENDPOINT" := "https://api.smith.langchain.com"]>
       (<["LANGCHAIN_TRACING_V2" := "true"]> env)).

(** ** Test doubles

    Stand-ins for the collaborators, used to run the pipeline on concrete
    inputs. *)

Module Stub.

Definition page (text path : string) : Document :=
  mkDocument text [("source", path); ("page", "0")].

(** A serializer that writes the content, a bar, then the metadata in
    the order of its keys, as [json.dumps] writes a [dict] in the order of
    insertion; the parser recovers the content (the pipeline reads nothing
    else back). *)
Definition serialize (d : Document) : string :=
  page_content d +:+ "|" +:+
  Py.join ";" ((λ kv : string * string, kv.1 +:+ "=" +:+ kv.2) <$> metadata d).

Definition parse (s : string) : Document :=
  mkDocument (default EmptyString (head (Py.split "|" s))) [].

(** The splitter double hands the pages back unsplit. *)
Definition unsplit (chunk_size chunk_overlap : Z) (len : string → nat)
    (docs : list Document) : result (list Document) := Ok docs.

Definition collaborators (step_back answer : string) : Collaborators := {|
  pdf_loader path := Ok [page "The sky is blue. Grass is green." path];
  tiktoken_encode _ doc := Py.code <$> String.list_ascii_of_string doc;
  split_documents := unsplit;
  embed_passage _ := [0 # 1; 1 # 2; 1 # 1]%Q;
  embed_query _ := [1 # 1; 1 # 2; 0 # 1]%Q;
  similarity_search vs _ k := take k (snd <$> vs);
  chat_completion _ _ prompt :=
    match prompt with
    | FewShotPrompt _ _ _ => Ok step_back
    | TemplatePrompt _ _ _ _ => Ok answer
    end;
  dumps := serialize;
  loads := parse;
  examples_json _ :=
    Ok [("Could the members of The Police perform lawful arrests?",
         "what can the members of The Police do?")];
  thread_schedule _ := [];
|}.

(** The same collaborators under another schedule of the thread pool. *)
Definition scheduled (schedule : list nat) (deps : Collaborators)
    : Collaborators := {|
  pdf_loader := @pdf_loader deps;
  tiktoken_encode := @tiktoken_encode deps;
  split_documents := @split_documents deps;
  embed_passage := @embed_passage deps;
  embed_query := @embed_query deps;
  similarity_search := @similarity_search deps;
  chat_completion := @chat_completion deps;
  dumps := @dumps deps;
  loads := @loads deps;
  examples_json := @examples_json deps;
  thread_schedule _ := schedule;
|}.

Definition credentials : gmap string string :=
  <["GROQ_API_KEY" := "gsk-test"]> (<["PINECONE_API_KEY" := "pc-test"]> ∅).

Definition world : World := mkWorld credentials ∅ 0 [].

(** The same, with the tracing key set: [main] runs to the end. *)
Definition traced_world : World :=
  mkWorld (<["LANGCHAIN_API_KEY" := "ls-test"]> credentials) ∅ 0 [].

(** The same as [world], with [GROQ_API_KEY] set to the empty string. *)
Definition empty_key_world : World :=
  mkWorld (<["GROQ_API_KEY" := EmptyString]> credentials) ∅ 0 [].

(** An environment that holds no key at all. *)
Definition bare_world : World := mkWorld ∅ ∅ 0 [].

(** A project whose index [rag-abstract-8-paper] holds no vector. *)
Definition unpopulated : World :=
  mkWorld credentials {[ "rag-abstract-8-paper" := mkIndex 3 "cosine" [] ]} 0 [].

Definition llm : ChatGroq := mkChatGroq "gsk-test" (7 # 10) "llama3-8b-8192".

Definition retriever : Retriever :=
  mkRetriever (mkVectorStore "rag-abstract-8-paper") 5.

(** A reformulator that always answers the same question. *)
Definition reformulator (step_back : string) : gmap string string → M string :=
  λ _, ret step_back.

(** A project that already holds the index [rag-abstract-8-paper], with
    one vector in it. *)
Definition provisioned : World :=
  mkWorld credentials
    {[ "rag-abstract-8-paper" :=
         mkIndex 3 "cosine"
           [([0 # 1; 1 # 2; 1 # 1]%Q, page "The sky is blue." "paper.pdf")] ]}
    0 [].

End Stub.

(** ** Auxiliary notions used to state properties *)

(** What [os_param_not_set] answers, as a function of the environment. *)
Definition param_not_set (env : gmap string string) (param : string) : bool :=
  match env !! param with
  | None => true
  | Some v => bool_decide (v = EmptyString)
  end.

(** The second assignment of [get_index_name], applied to the first
    dot-separated field of the base name. *)
Definition index_name_of_stem (prefix stem : string) : string :=
  Py.str_take 45
    (Py.sub_hyphen_runs
       (Py.sub_non_alnum
          (prefix +:+ ":" +:+
           Py.lower (Py.join " " (Py.last_n 5 (Py.split " " stem)))))).

(** Two documents with the same content and the same metadata, read as a
    mapping: the order of the keys does not count, as in the equality of
    two Python [dict]s. *)
Definition same_document (d1 d2 : Document) : Prop :=
  page_content d1 = page_content d2
  ∧ (list_to_map (metadata d1) : gmap string string) =
    list_to_map (metadata d2).

(** The world once a search has been issued through a retriever. *)
Definition searched (retriever : Retriever) (query : string) (w : World)
    : World :=
  log (EvSearch (vs_index_name (vectorstore retriever))
         (search_k retriever) query) w.

(** The worlds in which the parallel part of [rag_chain] can end when
    the reformulator [qec] returns [step_back]: the search for the question
    comes before the reformulation, between the reformulation and the
    search for [step_back], or after both. *)
Definition interleavings (qec : M string) (retriever : Retriever)
    (question step_back : string) (w : World) : list World :=
  [searched retriever step_back (qec (searched retriever question w)).2;
   searched retriever step_back (searched retriever question (qec w).2);
   searched retriever question (searched retriever step_back (qec w).2)].

(** [t2] advanced by [j] steps, then [t1] run to its end, then what is
    left of [t2]. *)
Fixpoint overtaken {A B} (j : nat) (t1 : Task A) (t2 : Task B) (w : World)
    : (result A * result B) * World :=
  match j, t2 with
  | S j', Step effect next => overtaken j' t1 (next w) (effect w)
  | _, _ =>
      let '(r1, w1) := run_task t1 w in
      let '(r2, w2) := run_task t2 w1 in
      ((r1, r2), w2)
  end.

(** What a search returned, turned into a context as the branches of
    [rag_chain] do. *)
Definition context_of {deps : Collaborators}
    (found : result (list Document)) : result (list string) :=
  match found with
  | Ok docs => Ok (get_unique_union docs)
  | Err e => Err e
  end.

(** A string without a given character. *)
Definition free_of (sep : ascii) (s : string) : Prop :=
  Py.str_exists (λ c, Ascii.eqb c sep) s = false.

(** The events of a trace that reach Pinecone or the embedder. *)
Definition is_provisioning (e : event) : bool :=
  match e with
  | EvEmbedDocuments _ | EvListIndexes | EvCreateIndex _ _ | EvUpsert _ _
  | EvFromExistingIndex _ | EvSearch _ _ _ => true
  | _ => false
  end.

Definition is_llm (e : event) : bool :=
  match e with
  | EvLLM _ _ => true
  | _ => false
  end.

(** Collaborators whose PDF loader finds no file. *)
Definition missing_pdf : Collaborators := {|
  pdf_loader path := Err (FileNotFoundError path);
  tiktoken_encode := @tiktoken_encode (Stub.collaborators "q" "a");
  split_documents := Stub.unsplit;
  embed_passage := @embed_passage (Stub.collaborators "q" "a");
  embed_query := @embed_query (Stub.collaborators "q" "a");
  similarity_search := @similarity_search (Stub.collaborators "q" "a");
  chat_completion := @chat_completion (Stub.collaborators "q" "a");
  dumps := Stub.serialize;
  loads := Stub.parse;
  examples_json := @examples_json (Stub.collaborators "q" "a");
  thread_schedule := @thread_schedule (Stub.collaborators "q" "a");
|}.

(** Collaborators for which the examples file cannot be opened. *)
Definition missing_examples : Collaborators := {|
  pdf_loader := @pdf_loader (Stub.collaborators "q" "a");
  tiktoken_encode := @tiktoken_encode (Stub.collaborators "q" "a");
  split_documents := Stub.unsplit;
  embed_passage := @embed_passage (Stub.collaborators "q" "a");
  embed_query := @embed_query (Stub.collaborators "q" "a");
  similarity_search := @similarity_search (Stub.collaborators "q" "a");
  chat_completion := @chat_completion (Stub.collaborators "q" "a");
  dumps := Stub.serialize;
  loads := Stub.parse;
  examples_json path := Err (FileNotFoundError path);
  thread_schedule := @thread_schedule (Stub.collaborators "q" "a");
|}.

(** * Properties *)

(** Unfolds the plumbing of the monad, and nothing else, in the goal. *)
Ltac step := cbv [bind emit ret lift raise]; cbn [fst snd].

(** ** Strings *)

Module PyFacts.
Import Py.

Lemma split_no_sep sep s :
  str_exists (λ c, Ascii.eqb c sep) s = false → split sep s = [s].
Proof.
  induction s as [|c s IH]; simpl; [done|].
  destruct (Ascii.eqb c sep); simpl; [done|].
  intros Hs. by rewrite (IH Hs).
Qed.

Lemma split_sep_length sep s :
  str_exists (λ c, Ascii.eqb c sep) s = true → 2 ≤ length (split sep s).
Proof.
  induction s as [|c s IH]; simpl; [done|].
  destruct (Ascii.eqb c sep); simpl.
  - intros _. destruct s; simpl; [lia|].
    destruct (Ascii.eqb _ _); simpl; [lia|]. destruct (split sep s); simpl; lia.
  - intros Hs. specialize (IH Hs).
    destruct (split sep s) as [|w ws]; simpl in *; lia.
Qed.

Lemma item0_drop_last_ok {A} (l : list A) :
  2 ≤ length l → ∃ x, item0 (drop_last l) = Ok x.
Proof.
  destruct l as [|x [|y l]]; simpl; try lia. intros _.
  exists x. unfold drop_last. simpl. done.
Qed.

Lemma sub_non_alnum_id_chars s : str_forall is_id_char (sub_non_alnum s) = true.
Proof.
  induction s as [|c s IH]; simpl; [done|].
  rewrite IH, andb_true_r. unfold is_id_char.
  destruct (is_lower_alnum c) eqn:Hc; [by rewrite Hc | done].
Qed.

Lemma sub_non_alnum_length s :
  String.length (sub_non_alnum s) = String.length s.
Proof. induction s as [|c s IH]; simpl; [done | by rewrite IH]. Qed.

Lemma is_hyphen_eq c : is_hyphen c = true → c = "-"%char.
Proof. unfold is_hyphen. by intros ?%Ascii.eqb_eq. Qed.

(** The first character survives the collapse of hyphen runs. *)
Lemma sub_hyphen_runs_head c s :
  ∃ r, sub_hyphen_runs (String c s) = String c r.
Proof.
  revert c. induction s as [|c' s IH]; intros c; [by exists EmptyString|].
  cbn [sub_hyphen_runs].
  destruct (is_hyphen c && is_hyphen c') eqn:Hcc.
  - apply andb_true_iff in Hcc as [->%is_hyphen_eq ->%is_hyphen_eq].
    apply IH.
  - eauto.
Qed.

Lemma sub_hyphen_runs_forall p s :
  str_forall p s = true → str_forall p (sub_hyphen_runs s) = true.
Proof.
  induction s as [|c s IH]; [done|].
  intros [Hc Hs]%andb_true_iff. specialize (IH Hs).
  cbn [sub_hyphen_runs]. destruct s as [|c' s]; [simpl; by rewrite Hc|].
  destruct (is_hyphen c && is_hyphen c'); [done|].
  cbn [str_forall]. by rewrite Hc, IH.
Qed.

Lemma has_double_hyphen_cons c c' s :
  has_double_hyphen (String c (String c' s)) =
  (is_hyphen c && is_hyphen c') || has_double_hyphen (String c' s).
Proof. done. Qed.

Lemma sub_hyphen_runs_no_double s :
  has_double_hyphen (sub_hyphen_runs s) = false.
Proof.
  induction s as [|c s IH]; [done|].
  cbn [sub_hyphen_runs]. destruct s as [|c' s]; [done|].
  destruct (is_hyphen c && is_hyphen c') eqn:Hcc; [done|].
  destruct (sub_hyphen_runs_head c' s) as [r Hr].
  rewrite Hr in *. by rewrite has_double_hyphen_cons, Hcc, IH.
Qed.

Lemma str_take_forall p n s :
  str_forall p s = true → str_forall p (str_take n s) = true.
Proof.
  revert s. induction n as [|n IH]; intros [|c s]; simpl; try done.
  intros [Hc Hs]%andb_true_iff. by rewrite Hc, IH.
Qed.

Lemma str_take_no_double n s :
  has_double_hyphen s = false → has_double_hyphen (str_take n s) = false.
Proof.
  revert s. induction n as [|n IH]; intros [|c s]; try done.
  destruct s as [|c' s]; [by destruct n|].
  rewrite has_double_hyphen_cons. intros [Hcc Hs]%orb_false_iff.
  specialize (IH _ Hs). destruct n as [|n]; [done|].
  cbn [str_take] in *. by rewrite has_double_hyphen_cons, Hcc, IH.
Qed.

Lemma str_take_length n s : String.length (str_take n s) ≤ n.
Proof.
  revert s. induction n as [|n IH]; intros [|c s]; simpl; try lia.
  specialize (IH s). lia.
Qed.

Lemma append_length s t :
  String.length (s +:+ t) = String.length s + String.length t.
Proof. induction s as [|c s IH]; simpl; [done | by rewrite IH]. Qed.

Lemma length_pos_sub_hyphen_runs s :
  0 < String.length s → 0 < String.length (sub_hyphen_runs s).
Proof.
  destruct s as [|c s]; simpl; [lia|]. intros _.
  destruct (sub_hyphen_runs_head c s) as [r Hr].
  cbn [sub_hyphen_runs] in Hr. rewrite Hr. simpl. lia.
Qed.

Lemma length_pos_str_take n s :
  0 < String.length s → 0 < String.length (str_take (S n) s).
Proof. destruct s; simpl; lia. Qed.

End PyFacts.

(** ** The pattern of index identifiers *)

Module RegexFacts.
Import Py PyFacts Regex.

Lemma fullmatch_alt r1 r2 s :
  fullmatch (Alt r1 r2) s = fullmatch r1 s || fullmatch r2 s.
Proof. revert r1 r2. induction s as [|c s IH]; intros r1 r2; cbn; [done|apply IH]. Qed.

Lemma fullmatch_void_cat r r' s : fullmatch (Cat (Cat Void r) r') s = false.
Proof. induction s as [|c s IH]; cbn; [done|apply IH]. Qed.

Lemma fullmatch_alt_cat a b r s :
  fullmatch (Cat (Alt a b) r) s =
  fullmatch (Cat a r) s || fullmatch (Cat b r) s.
Proof.
  revert a b. induction s as [|c s IH]; intros a b; cbn.
  - by destruct (nullable a), (nullable b), (nullable r).
  - destruct (nullable a), (nullable b); cbn;
      rewrite ?fullmatch_alt, IH;
      destruct (fullmatch (Cat (deriv c a) r) s),
               (fullmatch (Cat (deriv c b) r) s),
               (fullmatch (deriv c r) s); done.
Qed.

Lemma fullmatch_eps_cat r1 r2 s :
  fullmatch (Cat (Cat Eps r1) r2) s = fullmatch (Cat r1 r2) s.
Proof.
  destruct s as [|c s]; cbn; [done|].
  destruct (nullable r1); cbn;
    by rewrite ?fullmatch_alt, fullmatch_alt_cat, fullmatch_void_cat.
Qed.

Lemma hyphen_not_alnum c : is_hyphen c = true → is_lower_alnum c = false.
Proof. by intros ->%is_hyphen_eq. Qed.

(** The derivative matcher and the automaton agree on the pattern, from
    both states. *)
Lemma fullmatch_accepts s :
  fullmatch index_id_pattern s = accepts false s
  ∧ fullmatch
      (Cat (Star (Class is_lower_alnum))
         (Star (Cat (Class is_hyphen) (Plus (Class is_lower_alnum))))) s =
    accepts true s.
Proof.
  induction s as [|c s [IH0 IH1]]; [done|]. unfold index_id_pattern, Plus in *.
  split; cbn.
  - destruct (is_lower_alnum c).
    + by rewrite fullmatch_eps_cat.
    + rewrite fullmatch_void_cat. by destruct (is_hyphen c).
  - rewrite fullmatch_alt. destruct (is_lower_alnum c) eqn:Hc.
    + rewrite fullmatch_eps_cat, IH1.
      destruct (is_hyphen c) eqn:Hh; [by rewrite hyphen_not_alnum in Hc|].
      by rewrite fullmatch_void_cat, orb_false_r.
    + rewrite fullmatch_void_cat. destruct (is_hyphen c).
      * by rewrite fullmatch_eps_cat.
      * by rewrite fullmatch_void_cat.
Qed.

(** On strings over [[a-z0-9-]] without two hyphens in a row, the
    automaton only looks at the two ends. *)
Lemma accepts_ends in_word s :
  str_forall is_id_char s = true → has_double_hyphen s = false →
  accepts in_word s =
    match s with
    | EmptyString => in_word
    | String _ _ =>
        (in_word || negb (starts_with_hyphen s)) && negb (ends_with_hyphen s)
    end.
Proof.
  revert in_word. induction s as [|c s IH]; intros in_word; [done|].
  intros [Hc Hs]%andb_true_iff Hdouble.
  assert (Hdouble' : has_double_hyphen s = false).
  { destruct s; [done|]. rewrite has_double_hyphen_cons in Hdouble.
    by apply orb_false_iff in Hdouble as [_ ?]. }
  cbn [accepts starts_with_hyphen]. destruct (is_lower_alnum c) eqn:Halnum.
  - assert (Hh : is_hyphen c = false).
    { destruct (is_hyphen c) eqn:Hh; [|done]. by rewrite hyphen_not_alnum in Halnum. }
    rewrite IH by done. rewrite Hh, orb_true_r. destruct s; cbn; by rewrite ?Hh.
  - unfold is_id_char in Hc. rewrite Halnum in Hc. cbn in Hc. rewrite Hc.
    rewrite IH by done. destruct s as [|c' s]; cbn [ends_with_hyphen].
    + rewrite Hc. by destruct in_word.
    + rewrite has_double_hyphen_cons, Hc in Hdouble.
      apply orb_false_iff in Hdouble as [Hc' _]. cbn in Hc'.
      cbn [starts_with_hyphen]. rewrite Hc'. by destruct in_word.
Qed.

(** An identifier over [[a-z0-9-]], not empty and without two hyphens in
    a row, matches [^[a-z0-9]+(-[a-z0-9]+)*$] exactly when it neither begins
    nor ends with a hyphen. *)
Lemma fullmatch_index_id_pattern s :
  0 < String.length s →
  str_forall is_id_char s = true → has_double_hyphen s = false →
  fullmatch index_id_pattern s =
    negb (starts_with_hyphen s) && negb (ends_with_hyphen s).
Proof.
  intros Hlen Hchars Hdouble.
  rewrite (proj1 (fullmatch_accepts s)), accepts_ends by done.
  destruct s; [cbn in Hlen; lia | done].
Qed.

End RegexFacts.

(** ** [get_index_name] *)

Section GetIndexName.
Import Py PyFacts.

Lemma get_index_name_ok_iff prefix data_source :
  is_ok (get_index_name prefix data_source) =
  str_exists is_dot (basename data_source).
Proof.
  unfold get_index_name.
  destruct (str_exists is_dot (basename data_source)) eqn:Hdot.
  - apply (split_sep_length ".") in Hdot.
    destruct (item0_drop_last_ok _ Hdot) as [stem ->]. done.
  - apply (split_no_sep ".") in Hdot. by rewrite Hdot.
Qed.

(** C10: a file name whose base name holds no dot makes [get_index_name]
    raise [IndexError]: the list left after dropping the last
    dot-separated field is empty, so taking its first item fails. Hence
    no identifier is returned for such a name. *)
Theorem get_index_name_no_dot prefix data_source :
  str_exists is_dot (basename data_source) = false →
  get_index_name prefix data_source =
    Err (IndexError "list index out of range")
  ∧ ∀ index_name, get_index_name prefix data_source ≠ Ok index_name.
Proof.
  intros Hdot. unfold get_index_name.
  rewrite (split_no_sep "." _ Hdot). split; [done|]. by intros ?.
Qed.

Lemma get_index_name_no_dot_witness :
  get_index_name "rag-abstract-8" "/home/user/docs/README" =
    Err (IndexError "list index out of range")
  ∧ ∀ index_name,
      get_index_name "rag-abstract-8" "/home/user/docs/README" ≠ Ok index_name.
Proof. apply get_index_name_no_dot. reflexivity. Defined.

(** The converse: a dot in the base name is all it takes to get an
    identifier. *)
Lemma get_index_name_dot prefix data_source :
  str_exists is_dot (basename data_source) = true →
  ∃ index_name, get_index_name prefix data_source = Ok index_name.
Proof.
  intros Hdot. pose proof (get_index_name_ok_iff prefix data_source) as H.
  rewrite Hdot in H. destruct (get_index_name _ _); [eauto | done].
Qed.

(** C3, as the specification states it, fails: the browser-style file
    name [paper (1).pdf] yields an identifier that ends in a hyphen, which
    the pattern [^[a-z0-9]+(-[a-z0-9]+)*$] rejects. *)
Lemma get_index_name_trailing_hyphen :
  get_index_name "rag-abstract-8" "paper (1).pdf" =
    Ok "rag-abstract-8-paper-1-"
  ∧ Regex.fullmatch Regex.index_id_pattern "rag-abstract-8-paper-1-" = false.
Proof. split; reflexivity. Qed.

Lemma normalised_shape n prefix rest :
  let index_name :=
    str_take (S n) (sub_hyphen_runs (sub_non_alnum (prefix +:+ ":" +:+ rest))) in
  0 < String.length index_name ≤ S n
  ∧ str_forall is_id_char index_name = true
  ∧ has_double_hyphen index_name = false.
Proof.
  intros index_name. unfold index_name. split_and!.
  - apply length_pos_str_take, length_pos_sub_hyphen_runs.
    rewrite sub_non_alnum_length, append_length. simpl. lia.
  - apply str_take_length.
  - apply str_take_forall, sub_hyphen_runs_forall, sub_non_alnum_id_chars.
  - apply str_take_no_double, sub_hyphen_runs_no_double.
Qed.

(** C3, amended: every identifier that [get_index_name] returns is not
    empty, is made of characters of [[a-z0-9-]] only, has no two hyphens
    in a row and is at most 45 characters long. A hyphen may come first or
    last: the identifier matches [^[a-z0-9]+(-[a-z0-9]+)*$] exactly when
    none does. *)
Theorem get_index_name_shape prefix data_source index_name :
  get_index_name prefix data_source = Ok index_name →
  0 < String.length index_name ≤ 45
  ∧ str_forall is_id_char index_name = true
  ∧ has_double_hyphen index_name = false
  ∧ Regex.fullmatch Regex.index_id_pattern index_name =
      negb (starts_with_hyphen index_name) && negb (ends_with_hyphen index_name).
Proof.
  unfold get_index_name.
  destruct (item0 _) as [stem|]; [|done].
  intros Hret.
  assert (Hinj : ∀ a b : string, Ok a = Ok b → a = b) by congruence.
  apply Hinj in Hret. rewrite <- Hret.
  destruct (normalised_shape 44 prefix
              (lower (join " " (last_n 5 (split " " stem)))))
    as ([Hpos Hlen] & Hchars & Hdouble).
  split_and!; [done..|]. by apply RegexFacts.fullmatch_index_id_pattern.
Qed.

Lemma get_index_name_shape_witness :
  0 < String.length "rag-abstract-8-paper-1-" ≤ 45
  ∧ str_forall is_id_char "rag-abstract-8-paper-1-" = true
  ∧ has_double_hyphen "rag-abstract-8-paper-1-" = false
  ∧ Regex.fullmatch Regex.index_id_pattern "rag-abstract-8-paper-1-" =
      negb (starts_with_hyphen "rag-abstract-8-paper-1-")
      && negb (ends_with_hyphen "rag-abstract-8-paper-1-").
Proof.
  apply (get_index_name_shape "rag-abstract-8" "paper (1).pdf"). reflexivity.
Defined.

(** A prefix that does not begin with a character of [[a-z0-9]] puts the
    hyphen in front, and a long title is cut at 45 characters. *)
Example get_index_name_leading_hyphen :
  get_index_name "RAG" "Attention Is All You Need.pdf" =
    Ok "-attention-is-all-you-need".
Proof. reflexivity. Qed.

Example get_index_name_truncated :
  get_index_name "rag-abstract-8"
    "/papers/A Survey of Large Language Models for Code Generation.pdf" =
    Ok "rag-abstract-8-language-models-for-code-gener".
Proof. reflexivity. Qed.

(** C7: [get_index_name] is a function of its two arguments and of nothing
    else. Two calls that agree on the prefix and on the file name return
    the same identifier (or raise the same exception), in whatever states
    of the world (environment, Pinecone project, calls made so far) they
    are made, and a call leaves the world as it found it. *)
Theorem get_index_name_deterministic
    prefix1 data_source1 prefix2 data_source2 (w1 w2 : World) :
  prefix1 = prefix2 → data_source1 = data_source2 →
  get_index_name prefix1 data_source1 = get_index_name prefix2 data_source2
  ∧ (lift (get_index_name prefix1 data_source1) w1).1 =
    (lift (get_index_name prefix2 data_source2) w2).1
  ∧ (lift (get_index_name prefix1 data_source1) w1).2 = w1.
Proof. by intros -> ->. Qed.

Lemma get_index_name_deterministic_witness :
  get_index_name "rag-abstract-8" "paper (1).pdf" =
    get_index_name "rag-abstract-8" "paper (1).pdf"
  ∧ (lift (get_index_name "rag-abstract-8" "paper (1).pdf") Stub.world).1 =
    (lift (get_index_name "rag-abstract-8" "paper (1).pdf") Stub.provisioned).1
  ∧ (lift (get_index_name "rag-abstract-8" "paper (1).pdf") Stub.world).2 =
    Stub.world.
Proof. by apply get_index_name_deterministic. Defined.

End GetIndexName.

(** ** [set_env] *)

Section SetEnv.
Context {deps : Collaborators}.

(** What [os_param_not_set] answers, read off the environment. *)
Lemma os_param_not_set_run param w :
  os_param_not_set param w =
    (Ok match environ w !! param with
        | None => true
        | Some v => bool_decide (v = EmptyString)
        end, w).
Proof.
  unfold os_param_not_set, bind, environ_get, ret.
  destruct (environ w !! param) as [v|] eqn:Hv; [|done].
  rewrite Hv. do 2 f_equal. apply bool_decide_ext. naive_solver.
Qed.

Lemma lookup_traced project_name env param :
  param ≠ "LANGCHAIN_PROJECT" → param ≠ "LANGCHAIN_ENDPOINT" →
  param ≠ "LANGCHAIN_TRACING_V2" →
  traced project_name env !! param = env !! param.
Proof. intros. unfold traced. by rewrite !lookup_insert_ne. Qed.


End SetEnv.



(** ** [get_retriever] *)

Section GetRetriever.
Context {deps : Collaborators}.

(** Index names are the keys of the project, so the sum that
    [_create_pinecone_index] computes is 1 for a name that is there and
    0 for one that is not. *)
Lemma count_index_name (indexes : gmap string PineconeIndex) index_name :
  sum_list ((λ index : string * PineconeIndex,
               if String.eqb index.1 index_name then 1 else 0) <$>
            map_to_list indexes) =
  if indexes !! index_name is Some _ then 1 else 0.
Proof.
  induction indexes as [|name idx indexes Hfresh IH] using map_ind.
  - by rewrite map_to_list_empty, lookup_empty.
  - rewrite map_to_list_insert by done. cbn. rewrite IH.
    destruct (String.eqb_spec name index_name) as [->|Hne].
    + by rewrite lookup_insert_eq, Hfresh.
    + rewrite lookup_insert_ne by done. done.
Qed.

Lemma _create_pinecone_index_run index_name dim w :
  _create_pinecone_index index_name dim w =
    match pinecone w !! index_name with
    | Some _ => (Ok false, log EvListIndexes w)
    | None =>
        (Ok true,
         set_pinecone (<[index_name := mkIndex dim "cosine" []]>)
           (log (EvCreateIndex index_name dim) (log EvListIndexes w)))
    end.
Proof.
  unfold _create_pinecone_index, list_indexes. step.
  cbn [pinecone log]. rewrite count_index_name.
  destruct (pinecone w !! index_name) as [idx|] eqn:Hidx; cbn [Nat.eqb]; [done|].
  unfold create_index. step. cbn [pinecone log]. by rewrite Hidx.
Qed.

(** Provisioning against a project that has the index. *)
Lemma get_retriever_existing docs k index_name w :
  is_Some (pinecone w !! index_name) →
  get_retriever docs k index_name w =
    (Ok (mkRetriever (mkVectorStore index_name) k),
     log (EvFromExistingIndex index_name)
       (log EvListIndexes (log (EvEmbedDocuments ["a"]) w))).
Proof.
  intros [idx Hidx]. unfold get_retriever, embed_documents. step.
  cbn [fmap list_fmap Py.item0].
  rewrite _create_pinecone_index_run. cbn [pinecone log]. rewrite Hidx.
  unfold from_existing_index. step. cbn [pinecone log]. by rewrite Hidx.
Qed.

(** Provisioning against a project that lacks the index. *)
Lemma get_retriever_fresh docs k index_name w :
  pinecone w !! index_name = None →
  get_retriever docs k index_name w =
    (Ok (mkRetriever (mkVectorStore index_name) k),
     set_pinecone
       (λ _, <[index_name :=
                mkIndex (length (embed_passage "a")) "cosine"
                  (zip (embed_passage <$> (page_content <$> docs)) docs)]>
               (pinecone w))
       (log (EvUpsert index_name docs)
          (log (EvEmbedDocuments (page_content <$> docs))
             (log (EvCreateIndex index_name (length (embed_passage "a")))
                (log EvListIndexes (log (EvEmbedDocuments ["a"]) w)))))).
Proof.
  intros Hidx. unfold get_retriever, embed_documents. step.
  cbn [fmap list_fmap Py.item0].
  rewrite _create_pinecone_index_run. cbn [pinecone log]. rewrite Hidx.
  unfold from_documents, embed_documents. step.
  cbn [pinecone log set_pinecone]. rewrite lookup_insert_eq.
  cbn [dimension metric vectors app].
  unfold set_pinecone, log. cbn [environ pinecone llm_calls trace].
  by rewrite insert_insert_eq.
Qed.

(** Provisioning always succeeds, and the index is there afterwards. *)
Lemma get_retriever_provisions docs k index_name w :
  ∃ w', get_retriever docs k index_name w =
          (Ok (mkRetriever (mkVectorStore index_name) k), w')
        ∧ is_Some (pinecone w' !! index_name).
Proof.
  destruct (pinecone w !! index_name) as [idx|] eqn:Hidx.
  - eexists. split; [apply get_retriever_existing; by rewrite Hidx|].
    cbn. by rewrite Hidx.
  - eexists. split; [by apply get_retriever_fresh|].
    cbn. by rewrite lookup_insert_eq.
Qed.

(** C1: provisioning is idempotent. When the project already has an
    index of the given name, [get_retriever] returns a retriever for it,
    makes exactly three outside calls (the probe embedding, the listing
    of the indexes, and the opening of the existing index), none of which
    creates an index or upserts a vector, and leaves the project as it
    was. Whatever the project held to begin with, two calls in a row with
    the same arguments both return the same retriever, and the second one
    leaves the project, hence every vector count, as the first one left
    it. *)
Theorem get_retriever_idempotent docs k index_name w :
  (is_Some (pinecone w !! index_name) →
     ∃ w',
       get_retriever docs k index_name w =
         (Ok (mkRetriever (mkVectorStore index_name) k), w')
       ∧ trace w' =
           trace w ++ [EvEmbedDocuments ["a"]; EvListIndexes;
                       EvFromExistingIndex index_name]
       ∧ pinecone w' = pinecone w
       ∧ vector_count index_name w' = vector_count index_name w)
  ∧ ∃ retriever w1 w2,
      get_retriever docs k index_name w = (Ok retriever, w1)
      ∧ get_retriever docs k index_name w1 = (Ok retriever, w2)
      ∧ trace w2 =
          trace w1 ++ [EvEmbedDocuments ["a"]; EvListIndexes;
                       EvFromExistingIndex index_name]
      ∧ pinecone w2 = pinecone w1
      ∧ vector_count index_name w2 = vector_count index_name w1
      ∧ total_vector_count w2 = total_vector_count w1.
Proof.
  assert (Hexisting : ∀ w0, is_Some (pinecone w0 !! index_name) →
    ∃ w', get_retriever docs k index_name w0 =
            (Ok (mkRetriever (mkVectorStore index_name) k), w')
          ∧ trace w' =
              trace w0 ++ [EvEmbedDocuments ["a"]; EvListIndexes;
                           EvFromExistingIndex index_name]
          ∧ pinecone w' = pinecone w0).
  { intros w0 Hsome. eexists. split; [by apply get_retriever_existing|].
    cbn. by rewrite <- !app_assoc. }
  split.
  - intros Hsome. destruct (Hexisting w Hsome) as (w' & Hrun & Htrace & Hstore).
    exists w'. unfold vector_count. by rewrite Hstore.
  - destruct (get_retriever_provisions docs k index_name w) as (w1 & Hrun1 & Hsome).
    destruct (Hexisting w1 Hsome) as (w2 & Hrun2 & Htrace2 & Hstore2).
    exists (mkRetriever (mkVectorStore index_name) k), w1, w2.
    unfold vector_count, total_vector_count. by rewrite Hstore2.
Qed.

End GetRetriever.

Lemma get_retriever_idempotent_witness :
  let deps := Stub.collaborators "q" "a" in
  let docs := [Stub.page "The sky is blue." "paper.pdf"] in
  let name := "rag-abstract-8-paper" in
  (∃ w',
     get_retriever docs 5 name Stub.provisioned =
       (Ok (mkRetriever (mkVectorStore name) 5), w')
     ∧ trace w' =
         trace Stub.provisioned ++
           [EvEmbedDocuments ["a"]; EvListIndexes; EvFromExistingIndex name]
     ∧ pinecone w' = pinecone Stub.provisioned
     ∧ vector_count name w' = vector_count name Stub.provisioned)
  ∧ ∃ retriever w1 w2,
      get_retriever docs 5 name Stub.provisioned = (Ok retriever, w1)
      ∧ get_retriever docs 5 name w1 = (Ok retriever, w2)
      ∧ trace w2 =
          trace w1 ++
            [EvEmbedDocuments ["a"]; EvListIndexes; EvFromExistingIndex name]
      ∧ pinecone w2 = pinecone w1
      ∧ vector_count name w2 = vector_count name w1
      ∧ total_vector_count w2 = total_vector_count w1.
Proof.
  intros deps docs name.
  destruct (get_retriever_idempotent (deps := deps) docs 5 name Stub.provisioned)
    as [Hexisting Htwice].
  split; [apply Hexisting | exact Htwice].
  eexists. vm_compute. reflexivity.
Defined.

Example get_retriever_twice_fresh :
  let deps := Stub.collaborators "q" "a" in
  let docs := [Stub.page "The sky is blue." "paper.pdf";
               Stub.page "Grass is green." "paper.pdf"] in
  let w1 := (get_retriever docs 5 "rag-abstract-8-paper" Stub.world).2 in
  let w2 := (get_retriever docs 5 "rag-abstract-8-paper" w1).2 in
  vector_count "rag-abstract-8-paper" Stub.world = 0
  ∧ vector_count "rag-abstract-8-paper" w1 = 2
  ∧ vector_count "rag-abstract-8-paper" w2 = 2.
Proof. vm_compute. done. Qed.

(** ** [get_unique_union] *)

Section GetUniqueUnion.
Context {deps : Collaborators}.

(** Every string of a list drawn from the serialized documents has a
    document behind it. *)
Lemma preimages (documents : list Document) (l : list string) :
  (∀ s, s ∈ l → s ∈ dumps <$> documents) →
  ∃ reps, l = dumps <$> reps ∧ ∀ r, r ∈ reps → r ∈ documents.
Proof.
  induction l as [|s l IH]; intros Hl.
  - exists []. split; [done|]. by intros r ?%elem_of_nil.
  - destruct IH as (reps & -> & Hreps).
    { intros s' Hs'. apply Hl. by right. }
    assert (Hs : s ∈ dumps <$> documents) by (apply Hl; by left).
    apply list_elem_of_fmap in Hs as (d & -> & Hd).
    exists (d :: reps). split; [done|].
    intros r [->|Hr]%elem_of_cons; auto.
Qed.

(** C2, amended: [get_unique_union] returns one entry for each
    distinct serialization found among the retrieved documents, and each
    entry is the page content of a retrieved document with that
    serialization; so the documents that collapse to one entry are those
    that serialize alike, and nothing but page contents is returned. In
    particular a result list whose documents all have one serialization
    gives exactly one copy of the content, and so does a list made of
    copies of one document (same content, and same metadata with its keys
    in the same order), such as a search that returns the same document
    twice. The serializer is only asked to give back the page content of
    the documents it was given. *)
Theorem get_unique_union_dedup (documents : list Document) :
  (∀ d, d ∈ documents → page_content (loads (dumps d)) = page_content d) →
  (∃ reps,
     get_unique_union documents = page_content <$> reps
     ∧ NoDup (dumps <$> reps)
     ∧ (∀ r, r ∈ reps → r ∈ documents)
     ∧ (∀ d, d ∈ documents → ∃ r, r ∈ reps ∧ dumps r = dumps d))
  ∧ length (get_unique_union documents) =
      size (list_to_set (dumps <$> documents) : gset string)
  ∧ (∀ d, d ∈ documents →
       (∀ d', d' ∈ documents → dumps d' = dumps d) →
       get_unique_union documents = [page_content d])
  ∧ (∀ d, d ∈ documents →
       (∀ d', d' ∈ documents → d' = d) →
       get_unique_union documents = [page_content d]).
Proof.
  intros Hload. unfold get_unique_union.
  set (unique_docs := elements (list_to_set (dumps <$> documents) : gset string)).
  assert (Hin : ∀ s, s ∈ unique_docs ↔ s ∈ dumps <$> documents).
  { intros s. unfold unique_docs. by rewrite elem_of_elements, elem_of_list_to_set. }
  assert (Hnodup : NoDup unique_docs) by apply NoDup_elements.
  destruct (preimages documents unique_docs) as (reps & Hreps & Hsub).
  { intros s. apply Hin. }
  assert (Hcontents :
    (λ doc, page_content (loads doc)) <$> unique_docs = page_content <$> reps).
  { rewrite Hreps, <- list_fmap_compose. apply list_fmap_ext.
    intros i r Hr. cbn. apply Hload, Hsub. by eapply list_elem_of_lookup_2. }
  assert (Hcollapse : ∀ d, d ∈ documents →
    (∀ d', d' ∈ documents → dumps d' = dumps d) →
    (λ doc, page_content (loads doc)) <$> unique_docs = [page_content d]).
  { intros d Hd Hsame.
    assert (Hone : unique_docs = [dumps d]).
    { assert (Hall : ∀ s, s ∈ unique_docs → s = dumps d).
      { intros s Hs. apply Hin, list_elem_of_fmap in Hs as (d' & -> & Hd').
        by apply Hsame. }
      assert (Hd0 : dumps d ∈ unique_docs)
        by (apply Hin; by apply list_elem_of_fmap_2).
      destruct unique_docs as [|s [|s' l]].
      - by apply elem_of_nil in Hd0.
      - f_equal. apply Hall. by left.
      - exfalso. apply NoDup_cons in Hnodup as [Hnotin _]. apply Hnotin.
        rewrite (Hall s), (Hall s'); [by left | right; by left | by left]. }
    rewrite Hone. cbn. f_equal. by apply Hload. }
  split_and!.
  - exists reps. split_and!; [done | by rewrite <- Hreps | done |].
    intros d Hd.
    assert (Hs : dumps d ∈ unique_docs) by (apply Hin; by apply list_elem_of_fmap_2).
    rewrite Hreps in Hs. apply list_elem_of_fmap in Hs as (r & Heq & Hr). eauto.
  - by rewrite length_fmap.
  - exact Hcollapse.
  - intros d Hd Hsame. apply Hcollapse; [done|].
    intros d' Hd'. by rewrite (Hsame d' Hd').
Qed.

End GetUniqueUnion.

(** C2, as the specification states it, fails: two documents with
    identical content and identical metadata, the one holding its metadata
    in the order source, page and the other in the order page, source,
    serialize differently and keep two entries. *)
Lemma get_unique_union_key_order :
  let deps := Stub.collaborators "q" "a" in
  let d1 :=
    mkDocument "The sky is blue." [("source", "paper.pdf"); ("page", "0")] in
  let d2 :=
    mkDocument "The sky is blue." [("page", "0"); ("source", "paper.pdf")] in
  same_document d1 d2
  ∧ get_unique_union [d1; d2] ≡ₚ ["The sky is blue."; "The sky is blue."]
  ∧ length (get_unique_union [d1; d2]) = 2.
Proof.
  intros deps d1 d2. split_and!.
  - split; [done|]. apply map_eq. intros key. unfold d1, d2. cbn.
    destruct (decide (key = "source")) as [->|Hsource]; [done|].
    destruct (decide (key = "page")) as [->|Hpage]; [done|].
    by rewrite !lookup_insert_ne, !lookup_empty by done.
  - vm_compute. reflexivity.
  - vm_compute. reflexivity.
Qed.

Lemma get_unique_union_dedup_witness :
  let deps := Stub.collaborators "q" "a" in
  let sky := Stub.page "The sky is blue." "paper.pdf" in
  let documents := [sky; Stub.page "Grass is green." "paper.pdf"; sky] in
  (∃ reps,
     get_unique_union documents = page_content <$> reps
     ∧ NoDup (dumps <$> reps)
     ∧ (∀ r, r ∈ reps → r ∈ documents)
     ∧ (∀ d, d ∈ documents → ∃ r, r ∈ reps ∧ dumps r = dumps d))
  ∧ length (get_unique_union documents) =
      size (list_to_set (dumps <$> documents) : gset string)
  ∧ (∀ d, d ∈ documents →
       (∀ d', d' ∈ documents → dumps d' = dumps d) →
       get_unique_union documents = [page_content d])
  ∧ (∀ d, d ∈ documents →
       (∀ d', d' ∈ documents → d' = d) →
       get_unique_union documents = [page_content d]).
Proof.
  intros deps sky documents.
  apply (get_unique_union_dedup (deps := deps) documents).
  intros d Hd. unfold documents in Hd.
  repeat (apply elem_of_cons in Hd as [->|Hd]); try reflexivity.
  by apply elem_of_nil in Hd.
Defined.

(** Two copies of one retrieved document give one entry. *)
Example get_unique_union_twice :
  let deps := Stub.collaborators "q" "a" in
  let sky := Stub.page "The sky is blue." "paper.pdf" in
  get_unique_union [sky; sky] = ["The sky is blue."].
Proof. vm_compute. reflexivity. Qed.

(** Documents with the same content and different metadata serialize
    differently, so each keeps its entry. *)
Example get_unique_union_metadata_apart :
  let deps := Stub.collaborators "q" "a" in
  get_unique_union
    [Stub.page "The sky is blue." "paper.pdf";
     Stub.page "The sky is blue." "other.pdf"]
  ≡ₚ ["The sky is blue."; "The sky is blue."].
Proof. vm_compute. reflexivity. Qed.

(** ** [get_final_rag_chain] *)

Section Interleaving.

Lemma parallel3_done13 {A B C} schedule (r1 : result A) (t2 : Task B)
    (r3 : result C) w :
  parallel3 schedule (Done r1) t2 (Done r3) w =
    ((r1, (run_task t2 w).1, r3), (run_task t2 w).2).
Proof.
  revert t2 w. induction schedule as [|i schedule IH]; intros t2 w.
  - cbn. by destruct (run_task t2 w).
  - destruct i as [|[|i]]; cbn [parallel3]; try apply IH.
    destruct t2 as [r2|effect next]; [apply IH|]. rewrite IH. done.
Qed.

Lemma overtaken_0 {A B} (t1 : Task A) (t2 : Task B) w :
  overtaken 0 t1 t2 w =
    (((run_task t1 w).1, (run_task t2 (run_task t1 w).2).1),
     (run_task t2 (run_task t1 w).2).2).
Proof.
  cbn. destruct (run_task t1 w) as [r1 w1]. cbn.
  by destruct (run_task t2 w1).
Qed.

Lemma overtaken_done {A B} j (t1 : Task A) (r2 : result B) w :
  overtaken j t1 (Done r2) w = (((run_task t1 w).1, r2), (run_task t1 w).2).
Proof. destruct j; cbn; by destruct (run_task t1 w). Qed.

Lemma overtaken_S_call {A B X} j (t1 : Task A) (m : M X) (k : X → Task B) w :
  overtaken (S j) t1 (call m k) w =
    match (m w).1 with
    | Ok a => overtaken j t1 (k a) (m w).2
    | Err e => overtaken j t1 (Done (Err e)) (m w).2
    end.
Proof. cbn. by destruct (m w).1. Qed.

Lemma run_task_call {A X} (m : M X) (k : X → Task A) w :
  run_task (call m k) w =
    match (m w).1 with
    | Ok a => run_task (k a) (m w).2
    | Err e => (Err e, (m w).2)
    end.
Proof. cbn. by destruct (m w).1. Qed.

(** A branch of one step, run beside another branch (the third having
    nothing to do): whatever the schedule, the step falls somewhere along
    the other branch. *)
Lemma parallel3_one_step {A B C} schedule effect next (value : World → result A)
    (t2 : Task B) (r3 : result C) w :
  (∀ w, next w = Done (value w)) →
  ∃ j,
    parallel3 schedule (Step effect next) t2 (Done r3) w =
      ((( overtaken j (Step effect next) t2 w).1.1,
        (overtaken j (Step effect next) t2 w).1.2, r3),
       (overtaken j (Step effect next) t2 w).2).
Proof.
  intros Hone. revert t2 w.
  induction schedule as [|i schedule IH]; intros t2 w.
  - exists 0. rewrite overtaken_0. cbn. rewrite Hone. cbn.
    by destruct (run_task t2 (effect w)).
  - destruct i as [|[|i]]; cbn [parallel3].
    + exists 0. rewrite Hone, parallel3_done13, overtaken_0. cbn.
      by rewrite Hone.
    + destruct t2 as [r2|effect2 next2].
      * destruct (IH (Done r2) w) as [j Hj]. by exists j.
      * destruct (IH (next2 w) (effect2 w)) as [j Hj]. by exists (S j).
    + destruct (IH t2 w) as [j Hj]. by exists j.
Qed.

End Interleaving.

Section RagChain.
Context {deps : Collaborators}.

Lemma search_calls_app t1 t2 :
  search_calls (t1 ++ t2) = search_calls t1 ++ search_calls t2.
Proof.
  induction t1 as [|e t1 IH]; [done|].
  destruct e; cbn; by rewrite ?IH.
Qed.

Lemma retriever_invoke_run retriever query w :
  let name := vs_index_name (vectorstore retriever) in
  retriever_invoke retriever query w =
    (match pinecone w !! name with
     | None => Err (PineconeApiException 404 "NOT_FOUND")
     | Some idx =>
         Ok (similarity_search (vectors idx) (embed_query query)
               (search_k retriever))
     end,
     log (EvSearch name (search_k retriever) query) w).
Proof.
  unfold retriever_invoke. step. cbn [pinecone log].
  by destruct (pinecone w !! _).
Qed.

Lemma getitem_question question :
  getitem {[ "question" := question ]} "question" = Ok question.
Proof. unfold getitem. by rewrite lookup_singleton_eq. Qed.


Lemma retriever_invoke_world retriever query w :
  (retriever_invoke retriever query w).2 = searched retriever query w.
Proof. by rewrite retriever_invoke_run. Qed.

(** A search reads the project and nothing else. *)
Lemma retriever_invoke_store retriever query w w' :
  pinecone w' = pinecone w →
  (retriever_invoke retriever query w').1 =
  (retriever_invoke retriever query w).1.
Proof. intros Hstore. rewrite !retriever_invoke_run. cbn. by rewrite Hstore. Qed.

Lemma retriever_invoke_found retriever query w idx :
  pinecone w !! vs_index_name (vectorstore retriever) = Some idx →
  (retriever_invoke retriever query w).1 =
    Ok (similarity_search (vectors idx) (embed_query query) (search_k retriever)).
Proof. intros Hidx. rewrite retriever_invoke_run. cbn. by rewrite Hidx. Qed.

(** A search branch, run on its own. *)
Lemma run_search retriever query w :
  run_task
    (call (retriever_invoke retriever query)
       (λ docs, Done (Ok (get_unique_union docs)))) w =
    (context_of (retriever_invoke retriever query w).1,
     searched retriever query w).
Proof.
  rewrite run_task_call, retriever_invoke_world.
  by destruct (retriever_invoke retriever query w).1.
Qed.

(** The parallel part of [rag_chain] when the reformulator returns
    [step_back] wherever it is run: under every schedule it ends in one of
    three ways, which differ by the place of the search for the question. *)
Lemma rag_chain_parallel schedule (qec : M string) retriever question step_back w :
  (qec w).1 = Ok step_back →
  (qec (searched retriever question w)).1 = Ok step_back →
  let wa := (qec w).2 in
  let wb := (qec (searched retriever question w)).2 in
  let found query w := context_of (retriever_invoke retriever query w).1 in
  ∃ wf r1 r2,
    parallel3 schedule
      (call (retriever_invoke retriever question)
         (λ docs, Done (Ok (get_unique_union docs))))
      (call qec
         (λ step_back,
            call (retriever_invoke retriever step_back)
              (λ docs, Done (Ok (get_unique_union docs)))))
      (Done (Ok question)) w =
      ((r1, r2, Ok question), wf)
    ∧ ((wf = searched retriever step_back wb
        ∧ r1 = found question w ∧ r2 = found step_back wb)
       ∨ (wf = searched retriever step_back (searched retriever question wa)
          ∧ r1 = found question wa
          ∧ r2 = found step_back (searched retriever question wa))
       ∨ (wf = searched retriever question (searched retriever step_back wa)
          ∧ r1 = found question (searched retriever step_back wa)
          ∧ r2 = found step_back wa)).
Proof.
  intros Ha Hb wa wb found.
  set (t1 := call (retriever_invoke retriever question)
               (λ docs, Done (Ok (get_unique_union docs)))).
  set (t2 := call qec _).
  destruct (parallel3_one_step schedule
              (λ w, (retriever_invoke retriever question w).2)
              (λ w, match (retriever_invoke retriever question w).1 with
                    | Ok a => Done (Ok (get_unique_union a))
                    | Err e => Done (Err e)
                    end)
              (λ w, found question w) t2 (Ok question) w) as [j Hj].
  { intros w0. unfold found. by destruct (retriever_invoke retriever question w0).1. }
  change (Step _ _) with t1 in Hj. rewrite Hj. clear Hj.
  eexists _, _, _. split; [reflexivity|]. subst wa wb.
  destruct j as [|[|j]].
  - left. rewrite overtaken_0. unfold t1, t2.
    rewrite run_search. cbn [fst snd].
    rewrite run_task_call, Hb, run_search. done.
  - right; left. unfold t2. rewrite overtaken_S_call, Ha, overtaken_0.
    unfold t1. by rewrite !run_search.
  - right; right. unfold t2. rewrite overtaken_S_call, Ha, overtaken_S_call.
    rewrite retriever_invoke_world. unfold t1, found.
    by destruct (retriever_invoke retriever step_back (qec w).2).1;
      rewrite overtaken_done, run_search.
Qed.

(** [rag_chain] on an input that holds the question, cut after its
    parallel part. *)
Lemma rag_chain_unfold qec retriever llm question step_back w :
  let x : gmap string string := {[ "question" := question ]} in
  (qec x w).1 = Ok step_back →
  (qec x (searched retriever question w)).1 = Ok step_back →
  let wa := (qec x w).2 in
  let wb := (qec x (searched retriever question w)).2 in
  let found query w := context_of (retriever_invoke retriever query w).1 in
  ∃ wf r1 r2,
    rag_chain qec retriever llm x w =
      match r1, r2 with
      | Ok normal_context, Ok step_back_context =>
          llm_invoke llm
            (TemplatePrompt response_prompt_template
               normal_context step_back_context question) wf
      | Err e, _ => (Err e, wf)
      | Ok _, Err e => (Err e, wf)
      end
    ∧ ((wf = searched retriever step_back wb
        ∧ r1 = found question w ∧ r2 = found step_back wb)
       ∨ (wf = searched retriever step_back (searched retriever question wa)
          ∧ r1 = found question wa
          ∧ r2 = found step_back (searched retriever question wa))
       ∨ (wf = searched retriever question (searched retriever step_back wa)
          ∧ r1 = found question (searched retriever step_back wa)
          ∧ r2 = found step_back wa)).
Proof.
  intros x Ha Hb wa wb found.
  destruct (rag_chain_parallel (thread_schedule w) (qec x) retriever question
              step_back w Ha Hb) as (wf & r1 & r2 & Hrun & Hcases).
  exists wf, r1, r2. split; [|exact Hcases].
  unfold rag_chain, runnable_parallel, bind. unfold x at 1 3.
  rewrite getitem_question. fold x. rewrite Hrun.
  by destruct r1, r2.
Qed.

(** The searches recorded once [rag_chain] is over are those recorded at
    the end of its parallel part. *)
Lemma search_calls_llm_invoke llm prompt w :
  search_calls (trace (llm_invoke llm prompt w).2) = search_calls (trace w).
Proof.
  unfold llm_invoke. cbn. rewrite search_calls_app. cbn. by rewrite app_nil_r.
Qed.

Lemma search_calls_searched retriever query w :
  search_calls (trace (searched retriever query w)) =
    search_calls (trace w) ++
      [(vs_index_name (vectorstore retriever), search_k retriever, query)].
Proof. unfold searched. cbn. by rewrite search_calls_app. Qed.

(** C4: on the input [{"question": question}], and when the
    query-enhancement chain (which issues no search of its own) returns
    [step_back], the final chain issues exactly two similarity searches,
    both on the index and with the fan-out of the one retriever it was
    given: one with the question as its query, one with [step_back]. The
    two branches run concurrently, so the order of the two searches is not
    fixed: the statement holds under every schedule of the thread pool,
    and whether or not the searches succeed. *)
Theorem rag_chain_search_calls qec retriever llm question step_back w :
  let x : gmap string string := {[ "question" := question ]} in
  let name := vs_index_name (vectorstore retriever) in
  let k := search_k retriever in
  issues_no_search (qec x) →
  (qec x w).1 = Ok step_back →
  (qec x (searched retriever question w)).1 = Ok step_back →
  ∃ calls,
    search_calls (trace (rag_chain qec retriever llm x w).2) =
      search_calls (trace w) ++ calls
    ∧ calls ≡ₚ [(name, k, question); (name, k, step_back)].
Proof.
  intros x name k Hquiet Ha Hb.
  destruct (rag_chain_unfold qec retriever llm question step_back w Ha Hb)
    as (wf & r1 & r2 & Hrun & Hcases).
  fold x in Hrun. rewrite Hrun.
  assert (Hend : ∀ r1 r2 : result (list string),
    search_calls (trace
      (match r1, r2 with
       | Ok normal_context, Ok step_back_context =>
           llm_invoke llm
             (TemplatePrompt response_prompt_template
                normal_context step_back_context question) wf
       | Err e, _ => (Err e, wf)
       | Ok _, Err e => (Err e, wf)
       end).2) = search_calls (trace wf)).
  { intros [?|?] [?|?]; cbn [snd]; by rewrite ?search_calls_llm_invoke. }
  rewrite Hend.
  destruct Hcases as [(-> & _) | [(-> & _) | (-> & _)]];
    rewrite !search_calls_searched, Hquiet, ?search_calls_searched,
      <- ?app_assoc; fold name k.
  - by exists [(name, k, question); (name, k, step_back)].
  - by exists [(name, k, question); (name, k, step_back)].
  - exists [(name, k, step_back); (name, k, question)].
    split; [done|]. apply Permutation_swap.
Qed.

(** When the query-enhancement chain fails where it is run first, the
    step-back search is not issued, and the failure is the chain's unless
    the search for the question failed too. *)
Lemma rag_chain_parallel_fails schedule (qec : M string) retriever question e w :
  (qec w).1 = Err e →
  (qec (searched retriever question w)).1 = Err e →
  ∃ wf,
    (parallel3 schedule
       (call (retriever_invoke retriever question)
          (λ docs, Done (Ok (get_unique_union docs))))
       (call qec
          (λ step_back,
             call (retriever_invoke retriever step_back)
               (λ docs, Done (Ok (get_unique_union docs)))))
       (Done (Ok question)) w).2 = wf
    ∧ (wf = (qec (searched retriever question w)).2
       ∨ wf = searched retriever question (qec w).2).
Proof.
  intros Ha Hb.
  set (t1 := call (retriever_invoke retriever question)
               (λ docs, Done (Ok (get_unique_union docs)))).
  set (t2 := call qec _).
  destruct (parallel3_one_step schedule
              (λ w, (retriever_invoke retriever question w).2)
              (λ w, match (retriever_invoke retriever question w).1 with
                    | Ok a => Done (Ok (get_unique_union a))
                    | Err e => Done (Err e)
                    end)
              (λ w, context_of (retriever_invoke retriever question w).1)
              t2 (Ok question) w) as [j Hj].
  { intros w0. by destruct (retriever_invoke retriever question w0).1. }
  change (Step _ _) with t1 in Hj. rewrite Hj. clear Hj.
  eexists. split; [reflexivity|]. cbn [snd]. destruct j as [|j].
  - left. rewrite overtaken_0. unfold t1, t2.
    rewrite run_search. cbn [fst snd]. by rewrite run_task_call, Hb.
  - right. unfold t2. rewrite overtaken_S_call, Ha, overtaken_done.
    unfold t1. by rewrite run_search.
Qed.

Lemma get_unique_union_nil : get_unique_union [] = [].
Proof. unfold get_unique_union. cbn. by rewrite elements_empty. Qed.

(** A run of the final chain in which the index is there and the
    query-enhancement chain returns [step_back]: under every schedule, the
    LLM is called on the same prompt, in one of the three worlds that the
    parallel part can reach. *)
Lemma rag_chain_run qec retriever llm question step_back w idx :
  let x : gmap string string := {[ "question" := question ]} in
  let name := vs_index_name (vectorstore retriever) in
  let k := search_k retriever in
  let found q := similarity_search (vectors idx) (embed_query q) k in
  let prompt :=
    TemplatePrompt response_prompt_template
      (get_unique_union (found question)) (get_unique_union (found step_back))
      question in
  keeps_store (qec x) →
  pinecone w !! name = Some idx →
  (qec x w).1 = Ok step_back →
  (qec x (searched retriever question w)).1 = Ok step_back →
  ∃ wf,
    wf ∈ interleavings (qec x) retriever question step_back w
    ∧ rag_chain qec retriever llm x w =
        (chat_completion (llm_calls wf) llm prompt,
         count_llm_call (log (EvLLM llm prompt) wf)).
Proof.
  intros x name k found prompt Hkeeps Hidx Ha Hb.
  destruct (rag_chain_unfold qec retriever llm question step_back w Ha Hb)
    as (wf & r1 & r2 & Hrun & Hcases).
  fold x in Hrun, Hcases.
  assert (Hfound : ∀ query w0, pinecone w0 = pinecone w →
    context_of (retriever_invoke retriever query w0).1 =
      Ok (get_unique_union (found query))).
  { intros query w0 Hstore.
    rewrite (retriever_invoke_found retriever query w0 idx); [done|].
    by rewrite Hstore. }
  assert (Hsa : pinecone (qec x w).2 = pinecone w) by apply Hkeeps.
  assert (Hsb : pinecone (qec x (searched retriever question w)).2 = pinecone w)
    by (by rewrite Hkeeps).
  exists wf. rewrite Hrun. unfold interleavings. rewrite !elem_of_cons.
  destruct Hcases as [(-> & -> & ->) | [(-> & -> & ->) | (-> & -> & ->)]];
    rewrite !Hfound by done; (split; [by auto|done]).
Qed.

(** C8: when both searches succeed and return no document, both
    contexts are the empty list, and the chain goes on to the synthesis:
    it fills the response prompt with the two empty contexts and the
    question, invokes the LLM on it, and returns what the LLM returns. No
    error comes from the contexts being empty. This holds under every
    schedule of the thread pool: the LLM is called once the two searches
    and the reformulation are over, in whichever order [interleavings]
    they came. *)
Theorem rag_chain_empty_contexts qec retriever llm question step_back w idx :
  let x : gmap string string := {[ "question" := question ]} in
  let name := vs_index_name (vectorstore retriever) in
  let k := search_k retriever in
  let prompt := TemplatePrompt response_prompt_template [] [] question in
  keeps_store (qec x) →
  pinecone w !! name = Some idx →
  (qec x w).1 = Ok step_back →
  (qec x (searched retriever question w)).1 = Ok step_back →
  similarity_search (vectors idx) (embed_query question) k = [] →
  similarity_search (vectors idx) (embed_query step_back) k = [] →
  get_unique_union [] = []
  ∧ ∃ wf,
      wf ∈ interleavings (qec x) retriever question step_back w
      ∧ rag_chain qec retriever llm x w =
          (chat_completion (llm_calls wf) llm prompt,
           count_llm_call (log (EvLLM llm prompt) wf)).
Proof.
  intros x name k prompt Hkeeps Hidx Ha Hb Hq Hsb.
  split; [apply get_unique_union_nil|].
  destruct (rag_chain_run qec retriever llm question step_back w idx
              Hkeeps Hidx Ha Hb) as (wf & Hwf & Hrun).
  exists wf. split; [done|]. fold x name k in Hrun.
  by rewrite Hrun, Hq, Hsb, get_unique_union_nil.
Qed.

End RagChain.

(** Scenario B of the specification, with the thread pool advancing the
    step-back branch first. *)
Lemma rag_chain_search_calls_witness :
  let deps :=
    Stub.scheduled [1; 1; 0]
      (Stub.collaborators "unused" "Rayleigh scattering.") in
  let qec := Stub.reformulator "What causes atmospheric scattering of light?" in
  ∃ calls,
    search_calls
      (trace (rag_chain qec Stub.retriever Stub.llm
                {[ "question" := "Why is the sky blue?" ]} Stub.provisioned).2) =
      search_calls (trace Stub.provisioned) ++ calls
    ∧ calls ≡ₚ
        [("rag-abstract-8-paper", 5, "Why is the sky blue?");
         ("rag-abstract-8-paper", 5,
          "What causes atmospheric scattering of light?")].
Proof.
  intros deps qec.
  apply (rag_chain_search_calls (deps := deps) qec Stub.retriever Stub.llm
           "Why is the sky blue?").
  - intros w. reflexivity.
  - reflexivity.
  - reflexivity.
Defined.

(** The order of the two searches follows the schedule: in the order of
    the keys the search for the question comes first, and when the thread
    pool advances the step-back branch first it comes last. *)
Example rag_chain_search_order :
  let qec := Stub.reformulator "What causes atmospheric scattering of light?" in
  let x : gmap string string := {[ "question" := "Why is the sky blue?" ]} in
  let run deps :=
    search_calls
      (trace (rag_chain (deps := deps) qec Stub.retriever Stub.llm x
                Stub.provisioned).2) in
  run (Stub.collaborators "unused" "Rayleigh scattering.") =
    [("rag-abstract-8-paper", 5, "Why is the sky blue?");
     ("rag-abstract-8-paper", 5, "What causes atmospheric scattering of light?")]
  ∧ run (Stub.scheduled [1; 1; 0]
           (Stub.collaborators "unused" "Rayleigh scattering.")) =
    [("rag-abstract-8-paper", 5, "What causes atmospheric scattering of light?");
     ("rag-abstract-8-paper", 5, "Why is the sky blue?")].
Proof. split; vm_compute; reflexivity. Qed.

(** Each of the three [interleavings] is the run of some schedule: here
    with the few-shot chain as reformulator, whose LLM call is recorded
    before, or after, the search for the question. *)
Example rag_chain_interleavings_reached :
  let double :=
    Stub.collaborators "What causes atmospheric scattering of light?"
      "Rayleigh scattering." in
  let qec := query_enhance_chain (deps := double) [] Stub.llm in
  let x : gmap string string := {[ "question" := "Why is the sky blue?" ]} in
  let prompt :=
    TemplatePrompt response_prompt_template
      ["The sky is blue."] ["The sky is blue."] "Why is the sky blue?" in
  let reached := interleavings (qec x) Stub.retriever "Why is the sky blue?"
                   "What causes atmospheric scattering of light?"
                   Stub.provisioned in
  let run schedule :=
    (rag_chain (deps := Stub.scheduled schedule double) qec Stub.retriever
       Stub.llm x Stub.provisioned).2 in
  NoDup (trace <$> reached)
  ∧ (λ wf, count_llm_call (log (EvLLM Stub.llm prompt) wf)) <$> reached =
      [run []; run [1; 0]; run [1; 1; 0]].
Proof.
  intros double qec x prompt reached run.
  split; [|vm_compute; reflexivity].
  unfold reached, interleavings. cbn [fmap list_fmap].
  repeat (apply NoDup_cons; split); [..|apply NoDup_nil];
    rewrite ?not_elem_of_cons; split_and?; try apply not_elem_of_nil.
  all: try done; intros H; vm_compute in H; discriminate H.
Qed.

(** Scenario D of the specification. *)
Lemma rag_chain_empty_contexts_witness :
  let deps := Stub.collaborators "unused" "I do not know." in
  let qec := Stub.reformulator "What causes atmospheric scattering of light?" in
  let x : gmap string string := {[ "question" := "Why is the sky blue?" ]} in
  let prompt :=
    TemplatePrompt response_prompt_template [] [] "Why is the sky blue?" in
  get_unique_union [] = []
  ∧ ∃ wf,
      wf ∈ interleavings (qec x) Stub.retriever "Why is the sky blue?"
             "What causes atmospheric scattering of light?" Stub.unpopulated
      ∧ rag_chain qec Stub.retriever Stub.llm x Stub.unpopulated =
          (chat_completion (llm_calls wf) Stub.llm prompt,
           count_llm_call (log (EvLLM Stub.llm prompt) wf)).
Proof.
  intros deps qec x prompt.
  eapply (rag_chain_empty_contexts (deps := deps) qec Stub.retriever Stub.llm
            "Why is the sky blue?" _ Stub.unpopulated (mkIndex 3 "cosine" [])).
  - intros w. reflexivity.
  - vm_compute. reflexivity.
  - reflexivity.
  - reflexivity.
  - reflexivity.
  - reflexivity.
Defined.
(** ** [split_pdf] *)

Section SplitPdf.
Context {deps : Collaborators}.

Lemma _load_pdf_run data_source w :
  _load_pdf data_source w =
    match pdf_loader data_source with
    | Ok pages =>
        (Ok pages,
         log (EvPrintLoaded (length pages) data_source)
           (log (EvLoadPdf data_source) w))
    | Err e => (Err e, log (EvLoadPdf data_source) w)
    end.
Proof. unfold _load_pdf. step. by destruct (pdf_loader data_source). Qed.

(** The constructor of the splitter accepts a configuration exactly when
    the overlap does not exceed the chunk size. *)
Lemma text_splitter_accepts chunk_size chunk_overlap length_function :
  (chunk_overlap ≤ chunk_size)%Z →
  text_splitter chunk_size chunk_overlap length_function =
    Ok (split_documents chunk_size chunk_overlap length_function).
Proof.
  intros Hle. unfold text_splitter.
  by destruct (Z.ltb_spec chunk_size chunk_overlap); [lia|].
Qed.

Lemma text_splitter_refuses chunk_size chunk_overlap length_function :
  (chunk_size < chunk_overlap)%Z →
  text_splitter chunk_size chunk_overlap length_function =
    Err (ValueError
           ("Got a larger chunk overlap (" +:+ pretty chunk_overlap +:+
            ") than chunk size (" +:+ pretty chunk_size +:+
            "), should be smaller.")).
Proof.
  intros Hlt. unfold text_splitter.
  by destruct (Z.ltb_spec chunk_size chunk_overlap); [|lia].
Qed.

(** C6, amended: for a positive chunk size, a chunk overlap larger than
    the chunk size makes [split_pdf] fail, whatever the document: no chunk
    is ever returned, and once the PDF is loaded the failure is the
    [ValueError] of the splitter's constructor, raised before anything is
    split (when the PDF cannot be loaded, the loader's error comes first).
    [split_pdf] itself checks nothing, and the constructor refuses no other
    overlap: with a chunk overlap equal to the chunk size, or smaller and
    not negative, the splitter is built and [split_pdf] returns what it
    makes of the pages. *)
Theorem split_pdf_configuration pdf_source chunk_size chunk_overlap encoding w :
  (0 < chunk_size)%Z →
  ((chunk_size < chunk_overlap)%Z →
     is_ok (split_pdf pdf_source chunk_size chunk_overlap encoding w).1 = false
     ∧ ∀ pages,
         pdf_loader pdf_source = Ok pages →
         split_pdf pdf_source chunk_size chunk_overlap encoding w =
           (Err (ValueError
                   ("Got a larger chunk overlap (" +:+ pretty chunk_overlap +:+
                    ") than chunk size (" +:+ pretty chunk_size +:+
                    "), should be smaller.")),
            log (EvPrintLoaded (length pages) pdf_source)
              (log (EvLoadPdf pdf_source) w)))
  ∧ ((0 ≤ chunk_overlap ≤ chunk_size)%Z →
     ∀ pages,
       pdf_loader pdf_source = Ok pages →
       split_pdf pdf_source chunk_size chunk_overlap encoding w =
         (split_documents chunk_size chunk_overlap (_num_tokens encoding) pages,
          log (EvPrintLoaded (length pages) pdf_source)
            (log (EvLoadPdf pdf_source) w))).
Proof.
  intros _. split.
  - intros Hlt. unfold split_pdf. step. rewrite _load_pdf_run.
    rewrite text_splitter_refuses by done.
    destruct (pdf_loader pdf_source) as [pages|e]; (split; [done|]).
    + by intros ? [= <-].
    + by intros ? [=].
  - intros [_ Hle] pages Hload. unfold split_pdf. step.
    by rewrite _load_pdf_run, Hload, text_splitter_accepts.
Qed.

(** The chunks [split_pdf] returns are the splitter's, as they are. *)
Lemma split_pdf_chunks pdf_source chunk_size chunk_overlap encoding w chunks w' :
  split_pdf pdf_source chunk_size chunk_overlap encoding w = (Ok chunks, w') →
  ∃ pages,
    pdf_loader pdf_source = Ok pages
    ∧ (chunk_overlap ≤ chunk_size)%Z
    ∧ split_documents chunk_size chunk_overlap (_num_tokens encoding) pages =
        Ok chunks.
Proof.
  unfold split_pdf. step. rewrite _load_pdf_run.
  destruct (pdf_loader pdf_source) as [pages|]; [|done].
  destruct (Z.ltb_spec chunk_size chunk_overlap) as [Hlt|Hle].
  - by rewrite text_splitter_refuses.
  - rewrite text_splitter_accepts by done. intros [= Hchunks _]. eauto.
Qed.

End SplitPdf.

(** C6, as the specification states it, fails: a chunk overlap equal to
    the chunk size is not refused, and [split_pdf] returns a chunk (here
    with a splitter that has nothing to split in a short page). *)
Lemma split_pdf_overlap_equal_size :
  let deps := Stub.collaborators "q" "a" in
  (128 >= 128)%Z
  ∧ (split_pdf "paper.pdf" 128 128 "cl100k_base" Stub.world).1 =
      Ok [Stub.page "The sky is blue. Grass is green." "paper.pdf"].
Proof. split; [done | reflexivity]. Qed.

(** An overlap of 512 for chunks of 128 is refused; an overlap of 128
    for chunks of 128 is not. *)
Lemma split_pdf_configuration_witness :
  let deps := Stub.collaborators "q" "a" in
  let page := Stub.page "The sky is blue. Grass is green." "paper.pdf" in
  is_ok (split_pdf "paper.pdf" 128 512 "cl100k_base" Stub.world).1 = false
  ∧ split_pdf "paper.pdf" 128 512 "cl100k_base" Stub.world =
      (Err (ValueError
              ("Got a larger chunk overlap (" +:+ pretty 512%Z +:+
               ") than chunk size (" +:+ pretty 128%Z +:+
               "), should be smaller.")),
       log (EvPrintLoaded 1 "paper.pdf")
         (log (EvLoadPdf "paper.pdf") Stub.world))
  ∧ split_pdf "paper.pdf" 128 128 "cl100k_base" Stub.world =
      (Ok [page],
       log (EvPrintLoaded 1 "paper.pdf")
         (log (EvLoadPdf "paper.pdf") Stub.world)).
Proof.
  intros deps page.
  destruct (split_pdf_configuration (deps := deps) "paper.pdf" 128 512
              "cl100k_base" Stub.world) as [Hrefused _]; [lia|].
  destruct Hrefused as [Hfails Herror]; [lia|].
  destruct (split_pdf_configuration (deps := deps) "paper.pdf" 128 128
              "cl100k_base" Stub.world) as [_ Haccepted]; [lia|].
  split_and!.
  - exact Hfails.
  - apply (Herror [page]). reflexivity.
  - apply (Haccepted ltac:(lia) [page]). reflexivity.
Defined.

(** The failure on a concrete run, message included. *)
Example split_pdf_overlap_above_size :
  let deps := Stub.collaborators "q" "a" in
  split_pdf "paper.pdf" 128 512 "cl100k_base" Stub.world =
    (Err (ValueError
            "Got a larger chunk overlap (512) than chunk size (128), should be smaller."),
     log (EvPrintLoaded 1 "paper.pdf") (log (EvLoadPdf "paper.pdf") Stub.world)).
Proof. vm_compute. reflexivity. Qed.

(** * Further properties *)

(** ** [set_env] and [get_llm] *)

Section SetEnvOutcome.
Context {deps : Collaborators}.

Lemma os_param_not_set_param param w :
  os_param_not_set param w = (Ok (param_not_set (environ w) param), w).
Proof. by rewrite os_param_not_set_run. Qed.

Lemma param_not_set_traced project_name env param :
  param ≠ "LANGCHAIN_PROJECT" → param ≠ "LANGCHAIN_ENDPOINT" →
  param ≠ "LANGCHAIN_TRACING_V2" →
  param_not_set (traced project_name env) param = param_not_set env param.
Proof. intros. unfold param_not_set. by rewrite lookup_traced. Qed.

(** The outcome of [set_env], decided by the three keys it reads. *)
Lemma set_env_run project_name w :
  set_env project_name w =
    (if param_not_set (environ w) "LANGCHAIN_API_KEY"
     then Err (TypeError "str expected, not NoneType")
     else if param_not_set (environ w) "GROQ_API_KEY"
     then Err (ValueError "GROQ_API_KEY not set.")
     else if param_not_set (environ w) "PINECONE_API_KEY"
     then Err (ValueError "PINECONE_API_KEY not set.")
     else Ok tt,
     set_environ (traced project_name) w).
Proof.
  assert (Hcheck : ∀ param,
    param ≠ "LANGCHAIN_PROJECT" → param ≠ "LANGCHAIN_ENDPOINT" →
    param ≠ "LANGCHAIN_TRACING_V2" →
    os_param_not_set param (set_environ (traced project_name) w) =
      (Ok (param_not_set (environ w) param),
       set_environ (traced project_name) w)).
  { intros param ???. rewrite os_param_not_set_param. cbn [environ set_environ].
    by rewrite param_not_set_traced. }
  unfold set_env. unfold bind at 1 2 3. cbn [environ_setitem].
  change (set_environ _ (set_environ _ (set_environ _ w)))
    with (set_environ (traced project_name) w).
  step. rewrite !Hcheck by done.
  destruct (param_not_set (environ w) "LANGCHAIN_API_KEY"); [done|].
  rewrite !Hcheck by done.
  destruct (param_not_set (environ w) "GROQ_API_KEY"); [done|].
  rewrite !Hcheck by done.
  by destruct (param_not_set (environ w) "PINECONE_API_KEY").
Qed.

Lemma param_not_set_false env param :
  param_not_set env param = false ↔
  ∃ v, env !! param = Some v ∧ v ≠ EmptyString.
Proof.
  unfold param_not_set. destruct (env !! param) as [v|].
  - rewrite bool_decide_eq_false. split; [by eauto|].
    by intros (v' & [= <-] & Hv).
  - split; [done|]. by intros (v & Hv & _).
Qed.




Lemma chat_groq_key key temperature model :
  key ≠ EmptyString →
  chat_groq key temperature model = Ok (mkChatGroq key temperature model).
Proof. intros Hkey. unfold chat_groq. by rewrite bool_decide_eq_false_2. Qed.

(** [os.environ["GROQ_API_KEY"]], then the constructor, in [get_llm]. *)
Lemma get_llm_run temperature model w :
  get_llm temperature model w =
    (match environ w !! "GROQ_API_KEY" with
     | Some key => chat_groq key temperature model
     | None => Err (KeyError "GROQ_API_KEY")
     end, w).
Proof.
  unfold get_llm, environ_getitem, getitem. step.
  by destruct (environ w !! "GROQ_API_KEY").
Qed.

(** X4: after a [set_env] that returned normally, [get_llm] always
    succeeds: it finds [GROQ_API_KEY] in the environment, builds the client
    with that value, which is not empty, and with the temperature and the
    model it was given, and changes nothing. (On its own [get_llm] raises
    [KeyError] when the variable is absent, see [get_llm_without_key], and
    the constructor's [ValidationError] when it is empty, see
    [get_llm_empty_key].) *)
Theorem get_llm_after_set_env project_name temperature model w w' :
  set_env project_name w = (Ok tt, w') →
  ∃ key,
    environ w !! "GROQ_API_KEY" = Some key ∧ key ≠ EmptyString
    ∧ get_llm temperature model w' = (Ok (mkChatGroq key temperature model), w').
Proof.
  intros Hset. rewrite set_env_run in Hset.
  destruct (param_not_set (environ w) "LANGCHAIN_API_KEY"); [done|].
  destruct (param_not_set (environ w) "GROQ_API_KEY") eqn:Hgroq; [done|].
  apply param_not_set_false in Hgroq as (key & Hkey & Hne).
  exists key. split_and!; [done..|].
  injection Hset as _ <-.
  rewrite get_llm_run. cbn [environ set_environ].
  by rewrite lookup_traced, Hkey, chat_groq_key.
Qed.

Lemma get_llm_without_key temperature model w :
  environ w !! "GROQ_API_KEY" = None →
  get_llm temperature model w = (Err (KeyError "GROQ_API_KEY"), w).
Proof. intros Hkey. by rewrite get_llm_run, Hkey. Qed.

Lemma get_llm_empty_key temperature model w :
  environ w !! "GROQ_API_KEY" = Some EmptyString →
  get_llm temperature model w =
    (Err (ValidationError "ChatGroq"), w).
Proof. intros Hkey. by rewrite get_llm_run, Hkey. Qed.

End SetEnvOutcome.


Lemma get_llm_after_set_env_witness :
  ∃ key,
    environ Stub.traced_world !! "GROQ_API_KEY" = Some key ∧ key ≠ EmptyString
    ∧ get_llm (7 # 10) "llama3-8b-8192"
        (set_environ (traced "rag") Stub.traced_world) =
      (Ok (mkChatGroq key (7 # 10) "llama3-8b-8192"),
       set_environ (traced "rag") Stub.traced_world).
Proof.
  apply (get_llm_after_set_env "rag" (7 # 10) "llama3-8b-8192" Stub.traced_world).
  reflexivity.
Defined.

(** ** What [get_index_name] reads of the path *)

Module PathFacts.
Import Py PyFacts.

Lemma append_cons c s t : String c s +:+ t = String c (s +:+ t).
Proof. done. Qed.

Lemma append_empty t : EmptyString +:+ t = t.
Proof. done. Qed.

Lemma str_exists_app p s t :
  str_exists p (s +:+ t) = str_exists p s || str_exists p t.
Proof.
  induction s as [|c s IH]; [done|].
  rewrite append_cons. cbn [str_exists]. by rewrite IH, orb_assoc.
Qed.

Lemma free_of_app sep s t :
  free_of sep (s +:+ t) ↔ free_of sep s ∧ free_of sep t.
Proof. unfold free_of. rewrite str_exists_app. apply orb_false_iff. Qed.

Lemma split_nonempty sep s : split sep s ≠ [].
Proof.
  destruct s as [|c s]; cbn; [done|].
  destruct (Ascii.eqb c sep); [done|]. by destruct (split sep s).
Qed.

(** A separator after a field without one ends that field. *)
Lemma split_app_sep sep a b :
  free_of sep a → split sep (a +:+ String sep b) = a :: split sep b.
Proof.
  unfold free_of. induction a as [|c a IH].
  - intros _. rewrite append_empty. cbn. by rewrite Ascii.eqb_refl.
  - rewrite append_cons. cbn.
    destruct (Ascii.eqb c sep); cbn; [done|]. intros Ha. by rewrite IH.
Qed.

(** No field of a split holds the separator. *)
Lemma split_fields_free sep s : Forall (free_of sep) (split sep s).
Proof.
  induction s as [|c s IH]; cbn; [by repeat constructor|].
  destruct (Ascii.eqb c sep) eqn:Hc; [by constructor|].
  destruct (split sep s) as [|w ws] eqn:Hsplit; [by apply split_nonempty in Hsplit|].
  apply Forall_cons in IH as [Hw Hws]. constructor; [|done].
  unfold free_of in *. cbn. by rewrite Hc, Hw.
Qed.

Lemma last_cons_nonempty {A} (x : A) l d : l ≠ [] → List.last (x :: l) d = List.last l d.
Proof. by destruct l. Qed.

(** What precedes a slash does not count for the base name. *)
Lemma basename_dir dir file :
  basename (dir +:+ String "/" file) = basename file.
Proof.
  unfold basename.
  induction dir as [|c dir IH]; rewrite ?append_empty, ?append_cons; cbn [split].
  - rewrite Ascii.eqb_refl. apply last_cons_nonempty, split_nonempty.
  - destruct (Ascii.eqb c "/").
    + rewrite last_cons_nonempty by apply split_nonempty. apply IH.
    + rewrite <- IH.
      assert (Hlen : 2 ≤ length (split "/" (dir +:+ String "/" file))).
      { apply split_sep_length. rewrite str_exists_app. cbn.
        by rewrite orb_true_r. }
      destruct (split "/" _) as [|w [|w' ws]]; cbn in Hlen; try lia. done.
Qed.

Lemma basename_free s : free_of "/" s → basename s = s.
Proof. intros Hs. unfold basename. by rewrite (split_no_sep "/" s Hs). Qed.

Lemma drop_last_cons {A} (x : A) l : l ≠ [] → drop_last (x :: l) = x :: drop_last l.
Proof.
  destruct l as [|y l]; [done|]. intros _. unfold drop_last. cbn.
  by rewrite Nat.sub_0_r.
Qed.

(** On a file name [stem.rest], the identifier is computed from the stem. *)
Lemma get_index_name_stem prefix stem rest :
  free_of "." stem → free_of "/" stem → free_of "/" rest →
  get_index_name prefix (stem +:+ String "." rest) =
    Ok (index_name_of_stem prefix stem).
Proof.
  intros Hdot Hslash Hrest. unfold get_index_name.
  rewrite basename_free.
  - rewrite split_app_sep by done.
    rewrite drop_last_cons by apply split_nonempty. done.
  - apply free_of_app. split; [done|]. unfold free_of in *. cbn. done.
Qed.

(** [split] undoes [join] on words without the separator. *)
Lemma split_join sep (words : list string) :
  words ≠ [] → Forall (free_of sep) words →
  split sep (join (String sep EmptyString) words) = words.
Proof.
  induction words as [|w [|w' words] IH]; [done| |].
  - intros _ [Hw _]%Forall_cons. cbn. by apply split_no_sep.
  - intros _ [Hw Hws]%Forall_cons.
    change (join (String sep EmptyString) (w :: w' :: words))
      with (w +:+ String sep (join (String sep EmptyString) (w' :: words))).
    rewrite split_app_sep by done. by rewrite IH.
Qed.

Lemma str_exists_join p sep (words : list string) :
  p sep = false → Forall (λ w, str_exists p w = false) words →
  str_exists p (join (String sep EmptyString) words) = false.
Proof.
  intros Hsep. induction words as [|w [|w' words] IH]; [done| |].
  - by intros [Hw _]%Forall_cons.
  - intros [Hw Hws]%Forall_cons.
    change (join (String sep EmptyString) (w :: w' :: words))
      with (w +:+ String sep (join (String sep EmptyString) (w' :: words))).
    rewrite str_exists_app. cbn [str_exists]. by rewrite Hw, Hsep, IH.
Qed.

Lemma last_n_app {A} n (l1 l2 : list A) :
  n ≤ length l2 → last_n n (l1 ++ l2) = last_n n l2.
Proof.
  intros Hn. unfold last_n. rewrite length_app.
  replace (length l1 + length l2 - n) with (length l1 + (length l2 - n)) by lia.
  by rewrite drop_app_add.
Qed.

Lemma last_n_idem {A} n (l : list A) : last_n n (last_n n l) = last_n n l.
Proof.
  unfold last_n. rewrite length_drop.
  by replace (length l - (length l - n) - n) with 0 by lia.
Qed.

End PathFacts.

Section IndexNamePath.
Import Py PyFacts PathFacts.

(** X5: the directories of the path play no part: a file gets the same
    identifier (or the same [IndexError]) wherever it lies. *)
Theorem get_index_name_ignores_directory prefix dir file :
  get_index_name prefix (dir +:+ "/" +:+ file) = get_index_name prefix file.
Proof.
  unfold get_index_name.
  change (dir +:+ "/" +:+ file) with (dir +:+ String "/" file).
  by rewrite basename_dir.
Qed.

(** X6: of a base name, only what comes before the first dot counts: the
    extension, and any further dotted part, are ignored, so [paper.pdf]
    and [paper.v2.final.pdf] get the same identifier. *)
Theorem get_index_name_ignores_after_first_dot prefix stem rest1 rest2 :
  free_of "." stem → free_of "/" stem →
  free_of "/" rest1 → free_of "/" rest2 →
  get_index_name prefix (stem +:+ "." +:+ rest1) =
    get_index_name prefix (stem +:+ "." +:+ rest2)
  ∧ get_index_name prefix (stem +:+ "." +:+ rest1) =
      Ok (index_name_of_stem prefix stem).
Proof.
  intros Hdot Hslash Hrest1 Hrest2.
  change (stem +:+ "." +:+ rest1) with (stem +:+ String "." rest1).
  change (stem +:+ "." +:+ rest2) with (stem +:+ String "." rest2).
  by rewrite !get_index_name_stem.
Qed.

(** X8: of the stem, only the last five space-separated words count: any
    words before them are dropped, so two titles that end with the same
    five words get the same identifier. *)
Theorem get_index_name_last_five_words prefix (before words : list string) rest :
  5 ≤ length words →
  Forall (λ w, free_of " " w ∧ free_of "." w ∧ free_of "/" w) (before ++ words) →
  free_of "/" rest →
  get_index_name prefix (join " " (before ++ words) +:+ "." +:+ rest) =
    get_index_name prefix (join " " (last_n 5 words) +:+ "." +:+ rest).
Proof.
  intros Hlen Hwords Hrest.
  assert (Hlast : Forall (λ w, free_of " " w ∧ free_of "." w ∧ free_of "/" w)
                    (last_n 5 words)).
  { apply Forall_app in Hwords as [_ Hw]. by apply Forall_drop. }
  assert (Hne : before ++ words ≠ []).
  { intros Hnil%(f_equal length). rewrite length_app in Hnil. cbn in Hnil. lia. }
  assert (Hne' : last_n 5 words ≠ []).
  { intros Hnil%(f_equal length). unfold last_n in Hnil.
    rewrite length_drop in Hnil. cbn in Hnil. lia. }
  assert (Hfree : ∀ sep (l : list string),
    (sep = "." ∨ sep = "/")%char →
    Forall (λ w, free_of " " w ∧ free_of "." w ∧ free_of "/" w) l →
    free_of sep (join " " l)).
  { intros sep l Hsep Hl. apply (str_exists_join _ " ").
    - by destruct Hsep as [-> | ->].
    - eapply Forall_impl; [exact Hl|]. intros w (_ & ? & ?).
      by destruct Hsep as [-> | ->]. }
  assert (Hsp1 : Forall (free_of " ") (before ++ words)).
  { eapply Forall_impl; [exact Hwords|]. by intros w (? & _). }
  assert (Hsp2 : Forall (free_of " ") (last_n 5 words)).
  { eapply Forall_impl; [exact Hlast|]. by intros w (? & _). }
  assert (Hsame : last_n 5 (before ++ words) = last_n 5 (last_n 5 words)).
  { by rewrite last_n_app, last_n_idem. }
  change (?s +:+ "." +:+ rest) with (s +:+ String "." rest).
  rewrite !get_index_name_stem by auto.
  unfold index_name_of_stem.
  by rewrite (split_join " " _ Hne Hsp1), (split_join " " _ Hne' Hsp2), Hsame.
Qed.

End IndexNamePath.

Lemma get_index_name_ignores_after_first_dot_witness :
  get_index_name "rag-abstract-8" ("paper" +:+ "." +:+ "pdf") =
    get_index_name "rag-abstract-8" ("paper" +:+ "." +:+ "v2.final.pdf")
  ∧ get_index_name "rag-abstract-8" ("paper" +:+ "." +:+ "pdf") =
      Ok (index_name_of_stem "rag-abstract-8" "paper").
Proof. by apply get_index_name_ignores_after_first_dot. Defined.

Lemma get_index_name_last_five_words_witness :
  get_index_name "rag-abstract-8"
    (Py.join " " (["A"; "Survey"; "of"] ++ ["Large"; "Language"; "Models"; "for"; "Code"])
     +:+ "." +:+ "pdf") =
  get_index_name "rag-abstract-8"
    (Py.join " " (Py.last_n 5 ["Large"; "Language"; "Models"; "for"; "Code"])
     +:+ "." +:+ "pdf").
Proof.
  apply get_index_name_last_five_words; [cbn; lia | | done].
  repeat constructor.
Defined.

(** ** Letter case in [get_index_name] *)

Module CaseFacts.
Import Py PyFacts PathFacts.

Lemma lower_char_idem c : lower_char (lower_char c) = lower_char c.
Proof. by destruct c as [[] [] [] [] [] [] [] []]. Qed.

(** Lowering neither makes nor unmakes a dot, a slash or a space. *)
Lemma lower_char_keeps_separators c sep :
  (sep = "." ∨ sep = "/" ∨ sep = " ")%char →
  Ascii.eqb (lower_char c) sep = Ascii.eqb c sep.
Proof.
  intros [-> | [-> | ->]]; by destruct c as [[] [] [] [] [] [] [] []].
Qed.

Lemma lower_idem s : lower (lower s) = lower s.
Proof. induction s as [|c s IH]; cbn; [done|]. by rewrite lower_char_idem, IH. Qed.

Lemma lower_app s t : lower (s +:+ t) = lower s +:+ lower t.
Proof.
  induction s as [|c s IH]; [done|].
  rewrite append_cons. cbn [lower]. by rewrite append_cons, IH.
Qed.

Lemma split_lower sep s :
  (sep = "." ∨ sep = "/" ∨ sep = " ")%char →
  split sep (lower s) = lower <$> split sep s.
Proof.
  intros Hsep. induction s as [|c s IH]; [done|]. cbn [lower split].
  rewrite lower_char_keeps_separators by done.
  destruct (Ascii.eqb c sep); cbn; [by rewrite IH|].
  rewrite IH. destruct (split sep s) eqn:Hsplit; [by apply split_nonempty in Hsplit|].
  done.
Qed.

Lemma last_lower (l : list string) :
  List.last (lower <$> l) EmptyString = lower (List.last l EmptyString).
Proof. induction l as [|w [|w' l] IH]; [done..|]. apply IH. Qed.

Lemma drop_last_fmap {A B} (f : A → B) l : drop_last (f <$> l) = f <$> drop_last l.
Proof. unfold drop_last. by rewrite length_fmap, fmap_take. Qed.

Lemma last_n_fmap {A B} (f : A → B) n l : last_n n (f <$> l) = f <$> last_n n l.
Proof. unfold last_n. by rewrite length_fmap, fmap_drop. Qed.

Lemma join_lower (l : list string) :
  join " " (lower <$> l) = lower (join " " l).
Proof.
  induction l as [|w [|w' l] IH]; [done..|].
  change (join " " (lower <$> w :: w' :: l))
    with (lower w +:+ " " +:+ join " " (lower <$> w' :: l)).
  change (join " " (w :: w' :: l)) with (w +:+ " " +:+ join " " (w' :: l)).
  by rewrite IH, !lower_app.
Qed.

Lemma basename_lower s : basename (lower s) = lower (basename s).
Proof. unfold basename. rewrite split_lower by auto. apply last_lower. Qed.

End CaseFacts.

Section IndexNameCase.
Import Py PyFacts PathFacts CaseFacts.

(** X7: the letter case of the path does not count: lowering the path
    leaves the identifier (or the [IndexError]) as it is, so [Paper.PDF]
    and [paper.pdf] share an index. This is not so for the prefix, which is
    never lowered and whose capitals end up as hyphens. *)
Theorem get_index_name_ignores_case prefix data_source :
  get_index_name prefix (lower data_source) = get_index_name prefix data_source.
Proof.
  unfold get_index_name.
  rewrite basename_lower, split_lower, drop_last_fmap by auto.
  destruct (drop_last (split "." (basename data_source))) as [|stem stems];
    [done|].
  cbn [fmap list_fmap item0].
  by rewrite split_lower, last_n_fmap, join_lower, lower_idem by auto.
Qed.

End IndexNameCase.

Example get_index_name_prefix_capitals :
  get_index_name "RAG-Abstract" "Paper.PDF" = Ok "-bstract-paper"
  ∧ get_index_name "rag-abstract" "Paper.PDF" = Ok "rag-abstract-paper".
Proof. split; reflexivity. Qed.

(** ** More on [get_retriever] *)

Section Provisioning.
Context {deps : Collaborators}.

Lemma search_calls_nil_app t1 t2 :
  search_calls t1 = [] → search_calls t2 = [] → search_calls (t1 ++ t2) = [].
Proof. intros H1 H2. by rewrite search_calls_app, H1, H2. Qed.

(** X9: when the project has no index of the given name, [get_retriever]
    creates one, with the cosine metric and the length of the embedding of
    ["a"] as its dimension, and stores in it one vector per document, in
    the order of the documents: the embedding of the page content, with the
    document. The outside calls are the probe, the listing, the creation,
    the embedding of all page contents and the upsert, in that order. *)
Theorem get_retriever_creates docs k index_name w :
  pinecone w !! index_name = None →
  ∃ w',
    get_retriever docs k index_name w =
      (Ok (mkRetriever (mkVectorStore index_name) k), w')
    ∧ pinecone w' !! index_name =
        Some (mkIndex (length (embed_passage "a")) "cosine"
                ((λ d, (embed_passage (page_content d), d)) <$> docs))
    ∧ vector_count index_name w' = length docs
    ∧ trace w' =
        trace w ++
          [EvEmbedDocuments ["a"]; EvListIndexes;
           EvCreateIndex index_name (length (embed_passage "a"));
           EvEmbedDocuments (page_content <$> docs);
           EvUpsert index_name docs].
Proof.
  intros Hidx. eexists. split; [by apply get_retriever_fresh|].
  assert (Hzip : zip (embed_passage <$> (page_content <$> docs)) docs =
                 (λ d, (embed_passage (page_content d), d)) <$> docs).
  { induction docs as [|d ds IH]; [done|]. cbn. by rewrite IH. }
  unfold vector_count. cbn [pinecone set_pinecone log trace].
  rewrite lookup_insert_eq, Hzip. cbn [vectors].
  split_and!; [done | by rewrite length_fmap | by rewrite <- !app_assoc].
Qed.

(** X10: what [get_retriever] never does. Whatever the project holds, it
    leaves the environment, the count of LLM calls and every index of
    another name as they are, takes no vector away from the named index,
    only adds to the record of outside calls, and among the calls it adds
    there is no similarity search and no LLM call. *)
Theorem get_retriever_frame docs k index_name w :
  let w' := (get_retriever docs k index_name w).2 in
  environ w' = environ w
  ∧ llm_calls w' = llm_calls w
  ∧ (∀ other, other ≠ index_name → pinecone w' !! other = pinecone w !! other)
  ∧ vector_count index_name w ≤ vector_count index_name w'
  ∧ ∃ calls,
      trace w' = trace w ++ calls
      ∧ search_calls calls = []
      ∧ forallb (λ e, negb (is_llm e)) calls = true.
Proof.
  destruct (pinecone w !! index_name) as [idx|] eqn:Hidx.
  - rewrite get_retriever_existing by (by rewrite Hidx).
    cbn [snd environ llm_calls pinecone trace log]. split_and!; try done.
    exists [EvEmbedDocuments ["a"]; EvListIndexes; EvFromExistingIndex index_name].
    by rewrite <- !app_assoc.
  - rewrite get_retriever_fresh by done.
    cbn [snd environ llm_calls pinecone trace log set_pinecone].
    split_and!; try done.
    + intros other Hother. by rewrite lookup_insert_ne.
    + unfold vector_count. rewrite Hidx. lia.
    + eexists [_; _; _; _; _]. by rewrite <- !app_assoc.
Qed.

(** X11: when the project already has the index, the documents passed to
    [get_retriever] are not looked at: whatever they are, the call returns
    the same retriever and leaves the same world, and the index keeps the
    vectors it had. A document that changed under the same file name is
    therefore not indexed again. *)
Theorem get_retriever_stale docs1 docs2 k index_name w :
  is_Some (pinecone w !! index_name) →
  get_retriever docs1 k index_name w = get_retriever docs2 k index_name w
  ∧ pinecone (get_retriever docs1 k index_name w).2 !! index_name =
      pinecone w !! index_name.
Proof. intros Hsome. by rewrite !get_retriever_existing. Qed.

End Provisioning.

Lemma get_retriever_creates_witness :
  let deps := Stub.collaborators "q" "a" in
  let docs := [Stub.page "The sky is blue." "paper.pdf";
               Stub.page "Grass is green." "paper.pdf"] in
  ∃ w',
    get_retriever docs 5 "rag-abstract-8-paper" Stub.world =
      (Ok (mkRetriever (mkVectorStore "rag-abstract-8-paper") 5), w')
    ∧ pinecone w' !! "rag-abstract-8-paper" =
        Some (mkIndex (length (embed_passage "a")) "cosine"
                ((λ d, (embed_passage (page_content d), d)) <$> docs))
    ∧ vector_count "rag-abstract-8-paper" w' = length docs
    ∧ trace w' =
        trace Stub.world ++
          [EvEmbedDocuments ["a"]; EvListIndexes;
           EvCreateIndex "rag-abstract-8-paper" (length (embed_passage "a"));
           EvEmbedDocuments (page_content <$> docs);
           EvUpsert "rag-abstract-8-paper" docs].
Proof.
  intros deps docs.
  apply (get_retriever_creates (deps := deps) docs 5 "rag-abstract-8-paper" Stub.world).
  reflexivity.
Defined.

Lemma get_retriever_stale_witness :
  let deps := Stub.collaborators "q" "a" in
  let old := [Stub.page "The sky is blue." "paper.pdf"] in
  let new := [Stub.page "The sky is grey." "paper.pdf"] in
  get_retriever old 5 "rag-abstract-8-paper" Stub.provisioned =
    get_retriever new 5 "rag-abstract-8-paper" Stub.provisioned
  ∧ pinecone (get_retriever old 5 "rag-abstract-8-paper" Stub.provisioned).2
      !! "rag-abstract-8-paper" =
    pinecone Stub.provisioned !! "rag-abstract-8-paper".
Proof.
  intros deps old new.
  apply (get_retriever_stale (deps := deps) old new 5 "rag-abstract-8-paper"
           Stub.provisioned).
  eexists. vm_compute. reflexivity.
Defined.

(** ** More on [get_unique_union] *)

Section UniqueUnion.
Context {deps : Collaborators}.

(** X12: the result of [get_unique_union] depends on the set of
    serializations of its input and on nothing else: two result lists with
    the same serialized documents, in whatever order and however often
    repeated, give the same entries up to order. *)
Theorem get_unique_union_set (documents1 documents2 : list Document) :
  (∀ s, s ∈ dumps <$> documents1 ↔ s ∈ dumps <$> documents2) →
  get_unique_union documents1 ≡ₚ get_unique_union documents2.
Proof.
  intros Hsame. unfold get_unique_union.
  assert (Heq : (list_to_set (dumps <$> documents1) : gset string) =
                list_to_set (dumps <$> documents2)).
  { apply set_eq. intros s. by rewrite !elem_of_list_to_set. }
  by rewrite Heq.
Qed.

(** X13: [get_unique_union] never returns more entries than it was given
    documents, and returns at least one entry unless it was given none. *)
Theorem get_unique_union_length (documents : list Document) :
  length (get_unique_union documents) ≤ length documents
  ∧ (documents ≠ [] → get_unique_union documents ≠ []).
Proof.
  unfold get_unique_union. rewrite length_fmap. split.
  - rewrite <- (length_fmap dumps documents).
    apply submseteq_length, NoDup_submseteq; [apply NoDup_elements|].
    intros s. by rewrite elem_of_elements, elem_of_list_to_set.
  - destruct documents as [|d ds]; [done|]. intros _ Hnil.
    apply fmap_nil_inv in Hnil.
    assert (Hd : dumps d ∈ elements (list_to_set (dumps <$> d :: ds) : gset string)).
    { rewrite elem_of_elements, elem_of_list_to_set. by left. }
    rewrite Hnil in Hd. by apply elem_of_nil in Hd.
Qed.

End UniqueUnion.

Lemma get_unique_union_set_witness :
  let deps := Stub.collaborators "q" "a" in
  let sky := Stub.page "The sky is blue." "paper.pdf" in
  let grass := Stub.page "Grass is green." "paper.pdf" in
  get_unique_union [sky; grass; sky] ≡ₚ get_unique_union [grass; sky].
Proof.
  intros deps sky grass.
  apply (get_unique_union_set (deps := deps)).
  intros s. rewrite !list_elem_of_fmap. split; intros (d & -> & Hd);
    exists d; (split; [done|]);
    repeat (apply elem_of_cons in Hd as [->|Hd]);
    try (by apply elem_of_nil in Hd);
    repeat ((by left) || right).
Defined.

(** ** More on the chains *)

Section Chains.
Context {deps : Collaborators}.

(** X14: how the final chain composes. When the index is there and the
    query-enhancement chain returns [step_back], the chain calls the LLM
    once, after the reformulation and the two searches, in whichever order
    [interleavings] these came, on the response template filled with three
    things kept apart: as direct context the deduplicated contents found
    for the question, as abstract context the deduplicated contents found
    for [step_back], and as question the original question, not the
    step-back one. What the LLM returns, text or failure, is what the
    chain returns. This holds under every schedule of the thread pool. *)
Theorem rag_chain_answer qec retriever llm question step_back w idx :
  let x : gmap string string := {[ "question" := question ]} in
  let name := vs_index_name (vectorstore retriever) in
  let k := search_k retriever in
  let found q := similarity_search (vectors idx) (embed_query q) k in
  let prompt :=
    TemplatePrompt response_prompt_template
      (get_unique_union (found question)) (get_unique_union (found step_back))
      question in
  keeps_store (qec x) →
  pinecone w !! name = Some idx →
  (qec x w).1 = Ok step_back →
  (qec x (searched retriever question w)).1 = Ok step_back →
  ∃ wf,
    wf ∈ interleavings (qec x) retriever question step_back w
    ∧ (rag_chain qec retriever llm x w).1 =
        chat_completion (llm_calls wf) llm prompt
    ∧ trace (rag_chain qec retriever llm x w).2 = trace wf ++ [EvLLM llm prompt]
    ∧ llm_calls (rag_chain qec retriever llm x w).2 = S (llm_calls wf).
Proof.
  intros x name k found prompt Hkeeps Hidx Ha Hb.
  destruct (rag_chain_run qec retriever llm question step_back w idx
              Hkeeps Hidx Ha Hb) as (wf & Hwf & Hrun).
  exists wf. split; [done|]. fold x name k in Hrun. by rewrite Hrun.
Qed.

(** X15: an input without the key ["question"] makes the final chain
    raise [KeyError]; with the chain of [get_query_enhance_chain] as its
    reformulator, this happens before any search and any LLM call, and the
    world is left as it was. *)
Theorem rag_chain_without_question examples llm' retriever llm
    (x : gmap string string) w :
  x !! "question" = None →
  rag_chain (query_enhance_chain examples llm') retriever llm x w =
    (Err (KeyError "question"), w).
Proof.
  intros Hx.
  assert (Hget : getitem x "question" = Err (KeyError "question")).
  { unfold getitem. by rewrite Hx. }
  unfold rag_chain, runnable_parallel, bind. rewrite Hget.
  rewrite parallel3_done13, run_task_call.
  unfold query_enhance_chain. step. by rewrite Hget.
Qed.

(** X16: when the index is not in the project, both searches are still
    attempted (the one for [step_back] once the query-enhancement chain has
    returned), in whichever order [interleavings] the thread pool takes
    them; the chain raises the failure of the search for the question, and
    the LLM is not called for the answer. *)
Theorem rag_chain_index_missing qec retriever llm question step_back w :
  let x : gmap string string := {[ "question" := question ]} in
  let name := vs_index_name (vectorstore retriever) in
  keeps_store (qec x) →
  pinecone w !! name = None →
  (qec x w).1 = Ok step_back →
  (qec x (searched retriever question w)).1 = Ok step_back →
  ∃ wf,
    wf ∈ interleavings (qec x) retriever question step_back w
    ∧ rag_chain qec retriever llm x w =
        (Err (PineconeApiException 404 "NOT_FOUND"), wf).
Proof.
  intros x name Hkeeps Hidx Ha Hb.
  destruct (rag_chain_unfold qec retriever llm question step_back w Ha Hb)
    as (wf & r1 & r2 & Hrun & Hcases).
  fold x in Hrun, Hcases.
  assert (Hmissing : ∀ query w0, pinecone w0 = pinecone w →
    context_of (retriever_invoke retriever query w0).1 =
      Err (PineconeApiException 404 "NOT_FOUND")).
  { intros query w0 Hstore. rewrite retriever_invoke_run. cbn.
    fold name. by rewrite Hstore, Hidx. }
  assert (Hsa : pinecone (qec x w).2 = pinecone w) by apply Hkeeps.
  exists wf. rewrite Hrun. unfold interleavings. rewrite !elem_of_cons.
  destruct Hcases as [(-> & -> & _) | [(-> & -> & _) | (-> & -> & _)]];
    rewrite Hmissing by done; (split; [by auto|done]).
Qed.

Lemma get_query_enhance_chain_run w :
  get_query_enhance_chain w =
    (match examples_json "data/rag_abstract_examples.json" with
     | Err e => Err e
     | Ok examples =>
         match environ w !! "GROQ_API_KEY" with
         | Some key =>
             match chat_groq key (7 # 10) "llama3-8b-8192" with
             | Ok llm => Ok (query_enhance_chain examples llm)
             | Err e => Err e
             end
         | None => Err (KeyError "GROQ_API_KEY")
         end
     end,
     log (EvOpenExamples "data/rag_abstract_examples.json") w).
Proof.
  unfold get_query_enhance_chain. step.
  destruct (examples_json _) as [examples|]; [|done].
  rewrite get_llm_run. cbn [environ log].
  destruct (environ w !! "GROQ_API_KEY"); [|done]. by destruct (chat_groq _ _ _).
Qed.


(** X17: building the query-enhancement chain calls no LLM and touches
    neither the environment nor the project; it only opens the examples
    file. It fails with the error of that file when the file cannot be
    read, whether or not [GROQ_API_KEY] is set; when the file is read, it
    fails with [KeyError] if the key is not in the environment and with the
    [ValidationError] of the [ChatGroq] constructor if the key is empty,
    and returns the few-shot chain built on the examples and the key
    otherwise. *)
Theorem get_query_enhance_chain_outcome w :
  let w' := (get_query_enhance_chain w).2 in
  w' = log (EvOpenExamples "data/rag_abstract_examples.json") w
  ∧ (∀ e, examples_json "data/rag_abstract_examples.json" = Err e →
       (get_query_enhance_chain w).1 = Err e)
  ∧ (∀ examples,
       examples_json "data/rag_abstract_examples.json" = Ok examples →
       environ w !! "GROQ_API_KEY" = None →
       (get_query_enhance_chain w).1 = Err (KeyError "GROQ_API_KEY"))
  ∧ (∀ examples,
       examples_json "data/rag_abstract_examples.json" = Ok examples →
       environ w !! "GROQ_API_KEY" = Some EmptyString →
       (get_query_enhance_chain w).1 =
         Err (ValidationError "ChatGroq"))
  ∧ (∀ examples key,
       examples_json "data/rag_abstract_examples.json" = Ok examples →
       environ w !! "GROQ_API_KEY" = Some key → key ≠ EmptyString →
       (get_query_enhance_chain w).1 =
         Ok (query_enhance_chain examples
               (mkChatGroq key (7 # 10) "llama3-8b-8192"))).
Proof.
  rewrite get_query_enhance_chain_run. cbn [fst snd].
  split_and!; [done|..].
  - by intros e ->.
  - by intros examples -> ->.
  - by intros examples -> ->.
  - intros examples key -> -> Hkey. by rewrite chat_groq_key.
Qed.

End Chains.

Lemma rag_chain_answer_witness :
  let deps :=
    Stub.scheduled [1; 0; 1] (Stub.collaborators "unused" "Rayleigh scattering.") in
  let qec := Stub.reformulator "What causes atmospheric scattering of light?" in
  let x : gmap string string := {[ "question" := "Why is the sky blue?" ]} in
  let prompt :=
    TemplatePrompt response_prompt_template
      ["The sky is blue."] ["The sky is blue."] "Why is the sky blue?" in
  ∃ wf,
    wf ∈ interleavings (qec x) Stub.retriever "Why is the sky blue?"
           "What causes atmospheric scattering of light?" Stub.provisioned
    ∧ (rag_chain qec Stub.retriever Stub.llm x Stub.provisioned).1 =
        chat_completion (llm_calls wf) Stub.llm prompt
    ∧ trace (rag_chain qec Stub.retriever Stub.llm x Stub.provisioned).2 =
        trace wf ++ [EvLLM Stub.llm prompt]
    ∧ llm_calls (rag_chain qec Stub.retriever Stub.llm x Stub.provisioned).2 =
        S (llm_calls wf).
Proof.
  intros deps qec x prompt.
  eapply (rag_chain_answer (deps := deps) qec Stub.retriever Stub.llm
            "Why is the sky blue?"
            "What causes atmospheric scattering of light?"
            Stub.provisioned
            (mkIndex 3 "cosine"
               [([0 # 1; 1 # 2; 1 # 1]%Q,
                 Stub.page "The sky is blue." "paper.pdf")])).
  - intros w. reflexivity.
  - vm_compute. reflexivity.
  - reflexivity.
  - reflexivity.
Defined.

Lemma rag_chain_without_question_witness :
  let deps := Stub.collaborators "q" "a" in
  rag_chain (query_enhance_chain [] Stub.llm) Stub.retriever Stub.llm
    {[ "query" := "Why is the sky blue?" ]} Stub.provisioned =
    (Err (KeyError "question"), Stub.provisioned).
Proof.
  intros deps.
  apply (rag_chain_without_question (deps := deps)). vm_compute. reflexivity.
Defined.

Lemma rag_chain_index_missing_witness :
  let deps := Stub.collaborators "q" "a" in
  let qec := Stub.reformulator "What causes atmospheric scattering of light?" in
  let x : gmap string string := {[ "question" := "Why is the sky blue?" ]} in
  ∃ wf,
    wf ∈ interleavings (qec x) Stub.retriever "Why is the sky blue?"
           "What causes atmospheric scattering of light?" Stub.world
    ∧ rag_chain qec Stub.retriever Stub.llm x Stub.world =
        (Err (PineconeApiException 404 "NOT_FOUND"), wf).
Proof.
  intros deps qec x.
  apply (rag_chain_index_missing (deps := deps) qec Stub.retriever Stub.llm
           "Why is the sky blue?").
  - intros w. reflexivity.
  - vm_compute. reflexivity.
  - reflexivity.
  - reflexivity.
Defined.

(** ** [split_pdf] and [main] *)

Section Main.
Context {deps : Collaborators}.

(** X18: when the PDF cannot be loaded, [split_pdf] raises the error of
    the loader, whatever the chunk size and the chunk overlap are: the text
    splitter is not even constructed, so a configuration it would refuse
    goes unnoticed, and nothing is printed. *)
Theorem split_pdf_loader_failure pdf_source chunk_size chunk_overlap encoding e w :
  pdf_loader pdf_source = Err e →
  split_pdf pdf_source chunk_size chunk_overlap encoding w =
    (Err e, log (EvLoadPdf pdf_source) w).
Proof.
  intros Hload. unfold split_pdf. step. by rewrite _load_pdf_run, Hload.
Qed.

Lemma split_pdf_run pdf_source chunk_size chunk_overlap encoding pages splitter w :
  pdf_loader pdf_source = Ok pages →
  text_splitter chunk_size chunk_overlap (_num_tokens encoding) = Ok splitter →
  split_pdf pdf_source chunk_size chunk_overlap encoding w =
    (splitter pages,
     log (EvPrintLoaded (length pages) pdf_source) (log (EvLoadPdf pdf_source) w)).
Proof.
  intros Hload Hsplitter. unfold split_pdf. step.
  by rewrite _load_pdf_run, Hload, Hsplitter.
Qed.

Lemma set_env_ok project_name w :
  (set_env project_name w).1 = Ok tt →
  set_env project_name w = (Ok tt, set_environ (traced project_name) w).
Proof.
  rewrite set_env_run. cbn [fst].
  by destruct (param_not_set (environ w) "LANGCHAIN_API_KEY"),
              (param_not_set (environ w) "GROQ_API_KEY"),
              (param_not_set (environ w) "PINECONE_API_KEY").
Qed.

(** X19: [main] starts with [set_env]: when [set_env] raises, [main]
    raises the same exception, and nothing else has happened: the PDF has
    not been opened, and neither Pinecone, the embedder nor the LLM has
    been called. *)
Theorem main_stops_at_set_env pdf_path question e w :
  (set_env "rag_abstract_8_python" w).1 = Err e →
  (main pdf_path question w).1 = Err e
  ∧ trace (main pdf_path question w).2 = trace w
  ∧ pinecone (main pdf_path question w).2 = pinecone w
  ∧ llm_calls (main pdf_path question w).2 = llm_calls w.
Proof.
  intros Hset.
  assert (Hmain : main pdf_path question w =
                  (Err e, set_environ (traced "rag_abstract_8_python") w)).
  { unfold main. unfold bind at 1.
    rewrite set_env_run in Hset |- *. cbn [fst] in Hset.
    destruct (param_not_set (environ w) "LANGCHAIN_API_KEY");
      [by injection Hset as <-|].
    destruct (param_not_set (environ w) "GROQ_API_KEY");
      [by injection Hset as <-|].
    destruct (param_not_set (environ w) "PINECONE_API_KEY");
      [by injection Hset as <-|].
    done. }
  by rewrite Hmain.
Qed.

(** X20: the identifier is derived after the PDF has been loaded and
    split. For a file whose base name holds no dot, [main] therefore loads
    and splits the PDF, and only then raises [IndexError]; it has not
    reached Pinecone, the embedder or the LLM. *)
Theorem main_file_without_dot pdf_path question pages splitter splits w :
  (set_env "rag_abstract_8_python" w).1 = Ok tt →
  pdf_loader pdf_path = Ok pages →
  text_splitter 512 128 (_num_tokens "cl100k_base") = Ok splitter →
  splitter pages = Ok splits →
  Py.str_exists Py.is_dot (Py.basename pdf_path) = false →
  main pdf_path question w =
    (Err (IndexError "list index out of range"),
     log (EvPrintLoaded (length pages) pdf_path)
       (log (EvLoadPdf pdf_path)
          (set_environ (traced "rag_abstract_8_python") w))).
Proof.
  intros Hset Hload Hsplitter Hsplits Hdot.
  assert (Hname : get_index_name "rag-abstract-8" pdf_path =
                  Err (IndexError "list index out of range")).
  { unfold get_index_name. by rewrite (PyFacts.split_no_sep "." _ Hdot). }
  unfold main. unfold bind at 1. rewrite (set_env_ok _ _ Hset).
  unfold bind at 1. rewrite (split_pdf_run _ _ _ _ _ _ _ Hload Hsplitter), Hsplits.
  unfold bind at 1, lift. by rewrite Hname.
Qed.





End Main.

(** ** The further properties on concrete runs *)


Lemma get_retriever_frame_witness :
  let deps := Stub.collaborators "q" "a" in
  let docs := [Stub.page "The sky is blue." "paper.pdf"] in
  let w' := (get_retriever docs 5 "rag-abstract-8-other" Stub.provisioned).2 in
  environ w' = environ Stub.provisioned
  ∧ llm_calls w' = llm_calls Stub.provisioned
  ∧ (∀ other, other ≠ "rag-abstract-8-other" →
       pinecone w' !! other = pinecone Stub.provisioned !! other)
  ∧ vector_count "rag-abstract-8-other" Stub.provisioned ≤
      vector_count "rag-abstract-8-other" w'
  ∧ ∃ calls,
      trace w' = trace Stub.provisioned ++ calls
      ∧ search_calls calls = []
      ∧ forallb (λ e, negb (is_llm e)) calls = true.
Proof.
  intros deps docs.
  apply (get_retriever_frame (deps := deps) docs 5 "rag-abstract-8-other"
           Stub.provisioned).
Defined.

Lemma get_unique_union_length_witness :
  let deps := Stub.collaborators "q" "a" in
  let sky := Stub.page "The sky is blue." "paper.pdf" in
  length (get_unique_union [sky; sky]) ≤ length [sky; sky]
  ∧ ([sky; sky] ≠ [] → get_unique_union [sky; sky] ≠ []).
Proof.
  intros deps sky. apply (get_unique_union_length (deps := deps) [sky; sky]).
Defined.

(** The four outcomes of [get_query_enhance_chain]: both keys of the
    examples and of Groq in place, the key empty, the key missing, the
    examples file missing. *)
Lemma get_query_enhance_chain_outcome_witness :
  let deps := Stub.collaborators "q" "a" in
  (get_query_enhance_chain Stub.world).1 =
    Ok (query_enhance_chain
          [("Could the members of The Police perform lawful arrests?",
            "what can the members of The Police do?")] Stub.llm)
  ∧ (get_query_enhance_chain Stub.empty_key_world).1 =
      Err (ValidationError "ChatGroq")
  ∧ (get_query_enhance_chain Stub.bare_world).1 = Err (KeyError "GROQ_API_KEY")
  ∧ (get_query_enhance_chain (deps := missing_examples) Stub.bare_world).1 =
      Err (FileNotFoundError "data/rag_abstract_examples.json")
  ∧ (get_query_enhance_chain Stub.empty_key_world).2 =
      log (EvOpenExamples "data/rag_abstract_examples.json") Stub.empty_key_world.
Proof.
  intros deps. split_and!.
  - destruct (get_query_enhance_chain_outcome (deps := deps) Stub.world)
      as (_ & _ & _ & _ & Hchain).
    by apply Hchain.
  - destruct (get_query_enhance_chain_outcome (deps := deps) Stub.empty_key_world)
      as (_ & _ & _ & Hempty & _).
    by eapply Hempty.
  - destruct (get_query_enhance_chain_outcome (deps := deps) Stub.bare_world)
      as (_ & _ & Hmissing & _).
    by eapply Hmissing.
  - destruct (get_query_enhance_chain_outcome (deps := missing_examples)
                Stub.bare_world) as (_ & Hfile & _).
    by apply Hfile.
  - by destruct (get_query_enhance_chain_outcome (deps := deps) Stub.empty_key_world)
      as (Hworld & _).
Defined.

(** The file is missing and the overlap exceeds the chunk size: the
    missing file is what is reported. *)
Lemma split_pdf_loader_failure_witness :
  split_pdf (deps := missing_pdf) "nowhere.pdf" 128 512 "cl100k_base" Stub.world =
    (Err (FileNotFoundError "nowhere.pdf"),
     log (EvLoadPdf "nowhere.pdf") Stub.world).
Proof.
  apply (split_pdf_loader_failure (deps := missing_pdf)). reflexivity.
Defined.

Lemma main_stops_at_set_env_witness :
  let deps := Stub.collaborators "q" "a" in
  let w := mkWorld {[ "LANGCHAIN_API_KEY" := "ls-test" ]} ∅ 0 [] in
  (main "docs/paper.pdf" "Why is the sky blue?" w).1 =
    Err (ValueError "GROQ_API_KEY not set.")
  ∧ trace (main "docs/paper.pdf" "Why is the sky blue?" w).2 = trace w
  ∧ pinecone (main "docs/paper.pdf" "Why is the sky blue?" w).2 = pinecone w
  ∧ llm_calls (main "docs/paper.pdf" "Why is the sky blue?" w).2 = llm_calls w.
Proof.
  intros deps w.
  apply (main_stops_at_set_env (deps := deps)). reflexivity.
Defined.

Lemma main_file_without_dot_witness :
  let deps := Stub.collaborators "q" "a" in
  let pages := [Stub.page "The sky is blue. Grass is green." "docs/README"] in
  main "docs/README" "Why is the sky blue?" Stub.traced_world =
    (Err (IndexError "list index out of range"),
     log (EvPrintLoaded (length pages) "docs/README")
       (log (EvLoadPdf "docs/README")
          (set_environ (traced "rag_abstract_8_python") Stub.traced_world))).
Proof.
  intros deps pages.
  by eapply (main_file_without_dot (deps := deps) "docs/README" _ pages
               (λ docs, Ok docs) pages).
Defined.


(** The run of [main] above, under two schedules of the thread pool: the
    search for the step-back question is recorded before or after the
    search for the question. *)
Example main_search_order :
  let double :=
    Stub.collaborators "What causes atmospheric scattering of light?"
      "Rayleigh scattering." in
  search_calls
    (trace (main (deps := Stub.scheduled [1; 1; 0] double)
              "docs/paper.pdf" "Why is the sky blue?" Stub.traced_world).2) =
    [("rag-abstract-8-paper", 5, "What causes atmospheric scattering of light?");
     ("rag-abstract-8-paper", 5, "Why is the sky blue?")]
  ∧ search_calls
      (trace (main (deps := double)
                "docs/paper.pdf" "Why is the sky blue?" Stub.traced_world).2) =
      [("rag-abstract-8-paper", 5, "Why is the sky blue?");
       ("rag-abstract-8-paper", 5, "What causes atmospheric scattering of light?")].
Proof. by vm_compute. Qed.
